(** * z2m: a client for the zwavejs2mqtt MQTT API

    Shallow embedding of [publisher.go] (package [api]: constants, wire
    records, [Value.Value], the [UnmarshalJSON] methods) and of [broker.go]
    (the [Broker]: device directory, pending writes, watchers and the three
    inbound handlers), followed by the properties proved about them.

    Conventions.
    - Go's [int] is a 64-bit integer; no arithmetic is performed on the
      integers of this program, so they are carried as [Z].
    - Go's [string] and [[]byte] are byte sequences: both are [string].
    - A Go [error] is [option Err]; [None] is [nil].
    - Go maps are reference objects.  Maps that are written after they were
      built ([Node.valueWatchers] and the watcher sets it holds) live in a
      store indexed by references; maps that are only read after
      construction are carried by value.
    - Every region between [b.mu.Lock()] and the matching [Unlock()] is one
      atomic transition.  *)

From Stdlib Require Import DecimalString.
From stdpp Require Import gmap strings list fin_maps.

Open Scope Z_scope.
Open Scope string_scope.

Abbreviation bytes := string (only parsing).

(** ** Errors *)

(** One constructor per error site of the two packages; the comment gives the
    format string of the site.  [%w] keeps the wrapped error. *)
Inductive Err : Type :=
| ExternalError (msg : string)
    (* an error value made outside the two packages: encoding/json,
       context, the Publisher *)
| ErrNodeNotFound (nodeName : string)
    (* "node %q not found" *)
| ErrNoProperty (id : Z) (property : string)
    (* "node:%d does not have property %q" *)
| ErrNoAttribute (nodeName property : string)
    (* "node %q has no attribute with label %q" *)
| ErrArgType
    (* "unexpected arg[0] type %T" *)
| ErrParseGetNodes (e : Err)
    (* "unable to parse GetNodes response: %w" *)
| ErrUnsuccessfulGetNodes
    (* "unsuccessful GetNodes response" *)
| ErrDuplicateNodeName (name : string)
    (* "duplicate node name %q" *)
| ErrWriteNotSuccessful (message : string)
    (* "write value response not successful: %s" *)
| ErrParseValue (ty : string) (e : Err)
    (* "unable to parse value of type %q: %w" *)
| ErrParseBoolValue (raw ty : string) (e : Err)
    (* "unable to parse value of type %q (%q): %w" *)
| ErrUnknownValueType (ty : string)
    (* "unknown value type %q" *)
| ErrArgsLength (l : nat)
    (* "unexpected args array of length %d; expected %d" *)
| ErrDataLength (l : nat)
    (* "data array has length %d; expected %d" *)
| ErrUpdateValueNotFound (id : string)
    (* "unable to find update value %q" *).

Abbreviation error := (option Err) (only parsing).

(** The error taxonomy of the specification (section 7), and the class of
    each error site.  Errors made outside the two packages carry no class
    of their own; the Timeout/Cancelled errors of the taxonomy are among
    them, made by package context. *)
Inductive ErrorKind :=
| NotFound | Malformed | TypeMismatch | Duplicate | RemoteFailure.

Definition kind (e : Err) : option ErrorKind :=
  match e with
  | ExternalError _ | ErrUnsuccessfulGetNodes => None
  | ErrNodeNotFound _ | ErrNoProperty _ _ | ErrNoAttribute _ _
  | ErrUpdateValueNotFound _ => Some NotFound
  | ErrArgType | ErrParseGetNodes _
  | ErrArgsLength _ | ErrDataLength _ => Some Malformed
  | ErrDuplicateNodeName _ => Some Duplicate
  | ErrWriteNotSuccessful _ => Some RemoteFailure
  | ErrParseValue _ _ | ErrParseBoolValue _ _ _
  | ErrUnknownValueType _ => Some TypeMismatch
  end.

(** [strconv.Itoa]. *)
Definition Itoa (i : Z) : string := NilZero.string_of_int (Z.to_int i).

(** ** Package api *)

Module api.

Definition TopicGetNodesReq := "/_CLIENTS/ZWAVE_GATEWAY/api/getNodes/set".
Definition TopicGetNodesResp := "/_CLIENTS/ZWAVE_GATEWAY/api/getNodes".
Definition TopicWriteValueResp := "/_CLIENTS/ZWAVE_GATEWAY/api/writeValue".
Definition TopicNodeValueUpdateEvent := "/_EVENTS/+/node/node_value_updated".

Definition TypeNumber := "number".
Definition TypeBool := "boolean".
Definition TypeString := "string".
Definition TypeListNumber := "number[]".
Definition TypeListBool := "boolean[]".
Definition TypeListString := "string[]".
Definition TypeDuration := "duration".
Definition TypeColor := "color".
Definition TypeAny := "any".

Definition DurationSeconds := "seconds".
Definition DurationMinutes := "minutes".

(** [time.Duration] counts nanoseconds. *)
Definition Second : Z := 1000000000.
Definition Minute : Z := 60 * Second.

Record StringInt := { StringInt_s : string; StringInt_i : Z }.

Definition StringInt_String (s : StringInt) : string :=
  if negb (StringInt_s s =? EmptyString) then StringInt_s s
  else Itoa (StringInt_i s).

(** [Value]: the fields the code reads.  The remaining fields of the Go
    struct (CommandClassName, PropertyName, Readable, Writeable, Label,
    Stateless, Min, Max, List, LastUpdate, IsCurrentValue, TargetValue,
    Default, States) are never read by either package. *)
Record Value := {
  ID : string;
  NodeID : Z;
  CommandClass : Z;
  Endpoint : Z;
  Property : StringInt;
  Type_ : string;
  RawValue : bytes;
}.

Record ValueID := {
  vid_NodeID : Z;
  vid_CommandClass : Z;
  vid_Endpoint : Z;
  vid_Property : string;
}.

(** [Node]: the fields the code reads.  [Values] is a Go map; it is kept as
    the list of its entries in the order in which the one [range] loop
    over it (in [handleGetNodesResp]) visits them, an order Go leaves
    unspecified. *)
Record Node := {
  Node_ID : Z;
  Name : string;
  Failed : bool;
  Values : list (string * Value);
}.

(** [node.Values[id]]. *)
Fixpoint Values_lookup (vs : list (string * Value)) (id : string)
  : option Value :=
  match vs with
  | [] => None
  | (k, v) :: vs' => if k =? id then Some v else Values_lookup vs' id
  end.

Record GetNodesResp := {
  gn_Success : bool;
  gn_Message : string;
  Result : list Node;
}.

Record WriteValueResp := {
  wv_Success : bool;
  wv_Message : string;
  wv_ValueID : ValueID;
  wv_Value : bytes;
}.

(** The dynamic values an [interface{}] holds in this program: what
    [Value.Value] returns, the [ValueID] that [WriteValue] places in
    [Args], and whatever the caller of [SetAttr] passes. *)
Inductive any :=
| any_nil
| any_int (n : Z)
| any_bool (b : bool)
| any_string (s : string)
| any_Duration (d : Z)
| any_RawMessage (raw : bytes)
| any_ValueID (vid : ValueID)
| any_other (description : string).

Record APIArgs := { Args : list any }.

(** The anonymous structs that the [UnmarshalJSON] methods decode into. *)
Record writeValueObj := {
  obj_Success : bool;
  obj_Message : string;
  obj_Args : list bytes;
}.

Record updateDescriptor := {
  upd_CommandClass : Z;
  upd_Endpoint : Z;
  upd_Property : StringInt;
  upd_PropertyKey : string;
}.

(** Zero values. *)
Definition zero_StringInt := {| StringInt_s := EmptyString; StringInt_i := 0 |}.
Definition zero_ValueID :=
  {| vid_NodeID := 0; vid_CommandClass := 0; vid_Endpoint := 0;
     vid_Property := EmptyString |}.
Definition zero_Value :=
  {| ID := EmptyString; NodeID := 0; CommandClass := 0; Endpoint := 0;
     Property := zero_StringInt; Type_ := EmptyString; RawValue := EmptyString |}.
Definition zero_Node :=
  {| Node_ID := 0; Name := EmptyString; Failed := false; Values := [] |}.
Definition zero_GetNodesResp :=
  {| gn_Success := false; gn_Message := EmptyString; Result := [] |}.
Definition zero_WriteValueResp :=
  {| wv_Success := false; wv_Message := EmptyString; wv_ValueID := zero_ValueID;
     wv_Value := EmptyString |}.
Definition zero_writeValueObj :=
  {| obj_Success := false; obj_Message := EmptyString; obj_Args := [] |}.
Definition zero_updateDescriptor :=
  {| upd_CommandClass := 0; upd_Endpoint := 0;
     upd_Property := zero_StringInt; upd_PropertyKey := EmptyString |}.

(** *** encoding/json

    The Go standard library is not part of the repository.  Its two entry
    points are taken as an interface, one method per target type the code
    passes to them.  [json.Unmarshal(data, &v)] receives the current
    contents of [v] and returns the error together with the new contents
    of [v].  For a target that has an [UnmarshalJSON] method the library
    checks the syntax of the text and hands it to the method; the callers
    below call the method, whose first [json.Unmarshal] makes that check
    again. *)
Class EncodingJSON := {
  Unmarshal_int : bytes -> Z -> error * Z;
  Unmarshal_bool : bytes -> bool -> error * bool;
  Unmarshal_string : bytes -> string -> error * string;
  (* struct { Unit string `json:"unit"` } *)
  Unmarshal_unit : bytes -> string -> error * string;
  Unmarshal_GetNodesResp : bytes -> GetNodesResp -> error * GetNodesResp;
  (* struct { Success bool; Message string; Args []json.RawMessage } *)
  Unmarshal_writeValueObj : bytes -> writeValueObj -> error * writeValueObj;
  Unmarshal_ValueID : bytes -> ValueID -> error * ValueID;
  (* struct { Data []json.RawMessage `json:"data"` } *)
  Unmarshal_data : bytes -> list bytes -> error * list bytes;
  Unmarshal_Node : bytes -> Node -> error * Node;
  Unmarshal_updateDescriptor :
    bytes -> updateDescriptor -> error * updateDescriptor;
  Marshal_APIArgs : APIArgs -> bytes * error;
}.

Section Codec.
Context `{EncodingJSON}.

(** [func (v Value) Value() (interface{}, error)] *)
Definition Value_Value (v : Value) : any * error :=
  if Type_ v =? TypeNumber then
    let tv := 0 in
    if (0 <? String.length (RawValue v))%nat then
      match Unmarshal_int (RawValue v) tv with
      | (Some err, _) => (any_nil, Some (ErrParseValue (Type_ v) err))
      | (None, tv) => (any_int tv, None)
      end
    else (any_int tv, None)
  else if Type_ v =? TypeBool then
    let tv := false in
    if (0 <? String.length (RawValue v))%nat then
      match Unmarshal_bool (RawValue v) tv with
      | (Some err, _) =>
          (any_nil, Some (ErrParseBoolValue (RawValue v) (Type_ v) err))
      | (None, tv) => (any_bool tv, None)
      end
    else (any_bool tv, None)
  else if (Type_ v =? TypeString) || (Type_ v =? TypeColor) then
    match Unmarshal_string (RawValue v) EmptyString with
    | (Some err, _) => (any_nil, Some (ErrParseValue (Type_ v) err))
    | (None, tv) => (any_string tv, None)
    end
  else if Type_ v =? TypeDuration then
    match Unmarshal_unit (RawValue v) EmptyString with
    | (Some err, _) => (any_nil, Some (ErrParseValue (Type_ v) err))
    | (None, unit) =>
        if unit =? DurationSeconds then (any_Duration Second, None)
        else if unit =? DurationMinutes then (any_Duration Minute, None)
        else (any_Duration 0, None)
    end
  else if Type_ v =? TypeAny then
    (any_RawMessage (RawValue v), None)
  else
    (any_nil, Some (ErrUnknownValueType (Type_ v))).

(** [func (v Value) WriteValue(value interface{}) APIArgs] *)
Definition Value_WriteValue (v : Value) (value : any) : APIArgs :=
  {| Args :=
       [ any_ValueID
           {| vid_NodeID := NodeID v;
              vid_CommandClass := CommandClass v;
              vid_Endpoint := Endpoint v;
              vid_Property := StringInt_String (Property v) |};
         value ] |}.

(** [func (s *StringInt) UnmarshalJSON(b []byte) error].  The library
    calls it while decoding the [property] field of a [Value] or of an
    update descriptor. *)
Definition StringInt_UnmarshalJSON (b : bytes) (s : StringInt)
  : error * StringInt :=
  match b with
  | EmptyString => (None, s)
  | String c _ =>
      if Ascii.eqb c (Ascii.ascii_of_nat 34) then
        let '(err, s') := Unmarshal_string b (StringInt_s s) in
        (err, {| StringInt_s := s'; StringInt_i := StringInt_i s |})
      else
        let '(err, i') := Unmarshal_int b (StringInt_i s) in
        (err, {| StringInt_s := StringInt_s s; StringInt_i := i' |})
  end.

(** [func (w *WriteValueResp) UnmarshalJSON(b []byte) error] *)
Definition WriteValueResp_UnmarshalJSON (b : bytes) (w : WriteValueResp)
  : error * WriteValueResp :=
  match Unmarshal_writeValueObj b zero_writeValueObj with
  | (Some err, _) => (Some err, w)
  | (None, obj) =>
      match obj_Args obj with
      | [arg0; arg1] =>
          let w1 :=
            {| wv_Success := obj_Success obj;
               wv_Message := obj_Message obj;
               wv_ValueID := wv_ValueID w;
               wv_Value := wv_Value w |} in
          match Unmarshal_ValueID arg0 (wv_ValueID w1) with
          | (Some err, vid) =>
              (Some err,
               {| wv_Success := wv_Success w1;
                  wv_Message := wv_Message w1;
                  wv_ValueID := vid;
                  wv_Value := wv_Value w1 |})
          | (None, vid) =>
              (None,
               {| wv_Success := wv_Success w1;
                  wv_Message := wv_Message w1;
                  wv_ValueID := vid;
                  wv_Value := arg1 |})
          end
      | args => (Some (ErrArgsLength (length args)), w)
      end
  end.

(** The composite identifier built in [NodeValueUpdate.UnmarshalJSON]:
    [fmt.Sprintf("%d-%d-%s", ...)] with the optional [propertyKey]
    suffix. *)
Definition update_id (update : updateDescriptor) : string :=
  let id :=
    Itoa (upd_CommandClass update) ++ "-" ++
    Itoa (upd_Endpoint update) ++ "-" ++
    StringInt_String (upd_Property update) in
  if negb (upd_PropertyKey update =? EmptyString)
  then id ++ "-" ++ upd_PropertyKey update
  else id.

(** [func (n *NodeValueUpdate) UnmarshalJSON(b []byte) error];
    [NodeValueUpdate] embeds a [Value] and nothing else. *)
Definition NodeValueUpdate_UnmarshalJSON (b : bytes) (n : Value)
  : error * Value :=
  match Unmarshal_data b [] with
  | (Some err, _) => (Some err, n)
  | (None, data) =>
      match data with
      | [data0; data1] =>
          match Unmarshal_Node data0 zero_Node with
          | (Some err, _) => (Some err, n)
          | (None, node) =>
              match Unmarshal_updateDescriptor data1
                      zero_updateDescriptor with
              | (Some err, _) => (Some err, n)
              | (None, update) =>
                  let id := update_id update in
                  match Values_lookup (Values node) id with
                  | None => (Some (ErrUpdateValueNotFound id), n)
                  | Some value => (None, value)
                  end
              end
          end
      | _ => (Some (ErrDataLength (length data)), n)
      end
  end.

End Codec.

End api.

Import api.

(** ** Package z2m: the Broker *)

#[global] Instance ValueID_eq_dec : EqDecision ValueID.
Proof. solve_decision. Defined.

#[global] Instance ValueID_countable : Countable ValueID.
Proof.
  refine (inj_countable'
    (fun v => (vid_NodeID v, vid_CommandClass v, vid_Endpoint v,
               vid_Property v))
    (fun t => match t with
              | (n, c, e, pr) =>
                  {| vid_NodeID := n; vid_CommandClass := c;
                     vid_Endpoint := e; vid_Property := pr |}
              end) _).
  intros []; reflexivity.
Defined.

(** Channels and map objects are known by their identity. *)
Abbreviation chan_error := positive (only parsing).
Abbreviation chan_any := positive (only parsing).
Abbreviation ref := positive (only parsing).

(** [type Publisher interface { Publish(topic string, payload []byte) error }]:
    the answer of the transport to each publication. *)
Definition Publisher := string -> bytes -> error.

(** [type Node struct].  The struct is never written after
    [handleGetNodesResp] built it, so the two indices hold it by value;
    [valueWatchers] is the reference of its (mutable) map object. *)
Record Node := {
  Node_api : api.Node;
  valuesByProperty : gmap string Value;
  valuesByID : gmap string Value;
  valueWatchers : ref;
}.

(** [type Broker struct], together with the objects it refers to and the log
    of what went out through [p].

    - [mu] is [true] when the mutex is held by a call that returned without
      releasing it.
    - [gotNodes] is unbuffered and so holds nothing; a send on it is a
      hand-over to a receiver (see [handleGetNodesResp]).
    - [watcherMaps] holds the [map[string]map[chan<- interface{}]struct{}]
      objects, [watcherSets] the inner [map[chan<- interface{}]struct{}]
      objects, [waitBufs] the buffers of the [chan error] made by
      [SetAttr]; [next] is the next fresh identity. *)
Record State := {
  p : Publisher;
  mu : bool;
  setAttr : gmap ValueID chan_error;
  nodesByName : gmap string Node;
  nodesByID : gmap Z Node;
  watcherMaps : gmap ref (gmap string ref);
  watcherSets : gmap ref (gset chan_any);
  waitBufs : gmap chan_error (list error);
  next : positive;
  published : list (string * bytes);
}.

Definition set_mu (x : bool) (s : State) : State :=
  {| p := p s; mu := x; setAttr := setAttr s; nodesByName := nodesByName s;
     nodesByID := nodesByID s; watcherMaps := watcherMaps s;
     watcherSets := watcherSets s; waitBufs := waitBufs s; next := next s;
     published := published s |}.

Definition set_setAttr (x : gmap ValueID chan_error) (s : State) : State :=
  {| p := p s; mu := mu s; setAttr := x; nodesByName := nodesByName s;
     nodesByID := nodesByID s; watcherMaps := watcherMaps s;
     watcherSets := watcherSets s; waitBufs := waitBufs s; next := next s;
     published := published s |}.

Definition set_nodesByName (x : gmap string Node) (s : State) : State :=
  {| p := p s; mu := mu s; setAttr := setAttr s; nodesByName := x;
     nodesByID := nodesByID s; watcherMaps := watcherMaps s;
     watcherSets := watcherSets s; waitBufs := waitBufs s; next := next s;
     published := published s |}.

Definition set_nodesByID (x : gmap Z Node) (s : State) : State :=
  {| p := p s; mu := mu s; setAttr := setAttr s;
     nodesByName := nodesByName s; nodesByID := x;
     watcherMaps := watcherMaps s; watcherSets := watcherSets s;
     waitBufs := waitBufs s; next := next s; published := published s |}.

Definition set_watcherMaps (x : gmap ref (gmap string ref)) (s : State)
  : State :=
  {| p := p s; mu := mu s; setAttr := setAttr s;
     nodesByName := nodesByName s; nodesByID := nodesByID s;
     watcherMaps := x; watcherSets := watcherSets s;
     waitBufs := waitBufs s; next := next s; published := published s |}.

Definition set_watcherSets (x : gmap ref (gset chan_any)) (s : State)
  : State :=
  {| p := p s; mu := mu s; setAttr := setAttr s;
     nodesByName := nodesByName s; nodesByID := nodesByID s;
     watcherMaps := watcherMaps s; watcherSets := x;
     waitBufs := waitBufs s; next := next s; published := published s |}.

Definition set_waitBufs (x : gmap chan_error (list error)) (s : State)
  : State :=
  {| p := p s; mu := mu s; setAttr := setAttr s;
     nodesByName := nodesByName s; nodesByID := nodesByID s;
     watcherMaps := watcherMaps s; watcherSets := watcherSets s;
     waitBufs := x; next := next s; published := published s |}.

Definition set_next (x : positive) (s : State) : State :=
  {| p := p s; mu := mu s; setAttr := setAttr s;
     nodesByName := nodesByName s; nodesByID := nodesByID s;
     watcherMaps := watcherMaps s; watcherSets := watcherSets s;
     waitBufs := waitBufs s; next := x; published := published s |}.

Definition set_published (x : list (string * bytes)) (s : State) : State :=
  {| p := p s; mu := mu s; setAttr := setAttr s;
     nodesByName := nodesByName s; nodesByID := nodesByID s;
     watcherMaps := watcherMaps s; watcherSets := watcherSets s;
     waitBufs := waitBufs s; next := next s; published := x |}.

(** [func NewBroker(publisher Publisher) *Broker] *)
Definition NewBroker (publisher : Publisher) : State :=
  {| p := publisher; mu := false; setAttr := ∅; nodesByName := ∅;
     nodesByID := ∅; watcherMaps := ∅; watcherSets := ∅; waitBufs := ∅;
     next := 1%positive; published := [] |}.

(** Reading the map objects. *)
Definition watcherMap (s : State) (r : ref) : gmap string ref :=
  default ∅ (watcherMaps s !! r).

Definition watcherSet (s : State) (w : ref) : gset chan_any :=
  default ∅ (watcherSets s !! w).

Definition waitBuf (s : State) (c : chan_error) : list error :=
  default [] (waitBufs s !! c).

(** [b.p.Publish(topic, payload)] *)
Definition Publish (topic : string) (payload : bytes) (s : State)
  : State * error :=
  (set_published (published s ++ [(topic, payload)]) s, p s topic payload).

(** A blocking send on a [chan error] of capacity 1: [None] while the
    buffer is full. *)
Definition send_wait (c : chan_error) (e : error) (s : State)
  : option State :=
  match waitBuf s c with
  | [] => Some (set_waitBufs (<[c := [e]]> (waitBufs s)) s)
  | _ :: _ => None
  end.

(** *** WatchValue *)

(** The closure returned by [WatchValue], by the two variables it
    captures. *)
Record cancelFunc := { cancel_w : ref; cancel_v : chan_any }.

(** In the definitions below, [None] means that the call cannot proceed
    from [s]: it is blocked on [b.mu] or on a full channel. *)

(** [func (b *Broker) WatchValue(nodeName, property string,
    v chan<- interface{}) (func(), error)] *)
Definition WatchValue (nodeName property : string) (v : chan_any)
    (s : State) : option (State * (option cancelFunc * error)) :=
  if mu s then None else
  match nodesByName s !! nodeName with
  | None => Some (s, (None, Some (ErrNodeNotFound nodeName)))
  | Some n =>
      match valuesByProperty n !! property with
      | None =>
          Some (s, (None,
                    Some (ErrNoProperty (Node_ID (Node_api n)) property)))
      | Some _ =>
          let '(w, s1) :=
            match watcherMap s (valueWatchers n) !! property with
            | Some w => (w, s)
            | None =>
                let w := next s in
                (w,
                 set_watcherMaps
                   (<[valueWatchers n :=
                        <[property := w]> (watcherMap s (valueWatchers n))]>
                      (watcherMaps s))
                   (set_watcherSets (<[w := ∅]> (watcherSets s))
                      (set_next (Pos.succ (next s)) s)))
            end in
          let s2 :=
            set_watcherSets
              (<[w := {[v]} ∪ watcherSet s1 w]> (watcherSets s1)) s1 in
          Some (s2, (Some {| cancel_w := w; cancel_v := v |}, None))
      end
  end.

(** The body of the closure [cancel]: [delete(w, v)] under the lock. *)
Definition cancel (c : cancelFunc) (s : State) : option State :=
  if mu s then None else
  Some (set_watcherSets
          (<[cancel_w c := watcherSet s (cancel_w c) ∖ {[cancel_v c]}]>
             (watcherSets s)) s).

(** The case of a [select] statement that fires.  [ctx.Done()] is decided
    by the caller's context, whose [Err()] is then not nil. *)
Inductive select_case :=
| case_ctx_Done (ctx_Err : Err)
| case_recv.

(** *** SetAttr

    [SetAttr] takes the lock twice and blocks in between, so it runs as a
    sequence of transitions.  The program points: *)
Inductive SetAttr_pc :=
| SetAttr_start (nodeName property : string) (value : any)
    (* at [b.mu.Lock()], line 85 *)
| SetAttr_publish (vid : ValueID) (wait : chan_error) (payload : bytes)
    (* registered and unlocked, the deferred function armed; at
       [b.p.Publish], line 121 *)
| SetAttr_select (vid : ValueID) (wait : chan_error)
    (* at the [select], line 125 *)
| SetAttr_deferred (vid : ValueID) (ret : error)
    (* the return value is set; the deferred function is to run *)
| SetAttr_return (ret : error).

(** [GetNodes]: its program points. *)
Inductive GetNodes_pc :=
| GetNodes_start (ctx_is_nil : bool)
| GetNodes_select
| GetNodes_return (ret : error).

Section Broker.
Context `{EncodingJSON}.

(** [func (b *Broker) SetAttr(ctx context.Context, nodeName,
    property string, value interface{}) error], one transition at a
    time. *)
Definition SetAttr_step (o : select_case) (pc : SetAttr_pc) (s : State)
  : option (State * SetAttr_pc) :=
  match pc with
  | SetAttr_start nodeName property value =>
      if mu s then None else
      match nodesByName s !! nodeName with
      | None => Some (s, SetAttr_return (Some (ErrNodeNotFound nodeName)))
      | Some n =>
          match valuesByProperty n !! property with
          | None =>
              Some (s, SetAttr_return
                         (Some (ErrNoAttribute nodeName property)))
          | Some v =>
              let msg := Value_WriteValue v value in
              match Args msg with
              | any_ValueID vid :: _ =>
                  match Marshal_APIArgs msg with
                  | (_, Some err) =>
                      (* returns with [b.mu] still held *)
                      Some (set_mu true s, SetAttr_return (Some err))
                  | (payload, None) =>
                      let wait := next s in
                      Some (set_setAttr (<[vid := wait]> (setAttr s))
                              (set_waitBufs (<[wait := []]> (waitBufs s))
                                 (set_next (Pos.succ (next s)) s)),
                            SetAttr_publish vid wait payload)
                  end
              | _ => Some (s, SetAttr_return (Some ErrArgType))
              end
          end
      end
  | SetAttr_publish vid wait payload =>
      match Publish "_CLIENTS/ZWAVE_GATEWAY/api/writeValue/set" payload s
      with
      | (s', Some err) => Some (s', SetAttr_deferred vid (Some err))
      | (s', None) => Some (s', SetAttr_select vid wait)
      end
  | SetAttr_select vid wait =>
      match o with
      | case_ctx_Done ctx_Err =>
          Some (s, SetAttr_deferred vid (Some ctx_Err))
      | case_recv =>
          match waitBuf s wait with
          | [] => None
          | err :: rest =>
              Some (set_waitBufs (<[wait := rest]> (waitBufs s)) s,
                    SetAttr_deferred vid err)
          end
      end
  | SetAttr_deferred vid ret =>
      if mu s then None else
      Some (set_setAttr (delete vid (setAttr s)) s, SetAttr_return ret)
  | SetAttr_return _ => None
  end.

(** [func (b *Broker) GetNodes(ctx context.Context) error].  The receive
    from [b.gotNodes] is the other half of the send in
    [handleGetNodesResp]: see [GetNodes_recv]. *)
Definition GetNodes_step (o : select_case) (pc : GetNodes_pc) (s : State)
  : option (State * GetNodes_pc) :=
  match pc with
  | GetNodes_start ctx_is_nil =>
      match Publish TopicGetNodesReq EmptyString s with
      | (s', Some err) => Some (s', GetNodes_return (Some err))
      | (s', None) =>
          if ctx_is_nil then Some (s', GetNodes_return None)
          else Some (s', GetNodes_select)
      end
  | GetNodes_select =>
      match o with
      | case_ctx_Done ctx_Err => Some (s, GetNodes_return (Some ctx_Err))
      | case_recv => None
      end
  | GetNodes_return _ => None
  end.

(** [case err := <-b.gotNodes: return err] *)
Definition GetNodes_recv (err : error) (pc : GetNodes_pc)
  : option GetNodes_pc :=
  match pc with
  | GetNodes_select => Some (GetNodes_return err)
  | _ => None
  end.

(** *** handleNodeValueUpdated

    [ready c] tells whether a send on the caller's channel [c] can proceed
    at once (room in its buffer or a receiver waiting); the result lists
    the sends that took place. *)
Definition handleNodeValueUpdated (payload : bytes)
    (ready : chan_any -> bool) (s : State)
  : option (error * list (chan_any * any)) :=
  match NodeValueUpdate_UnmarshalJSON payload zero_Value with
  | (Some err, _) => Some (Some err, [])
  | (None, update) =>
      match Value_Value update with
      | (_, Some err) => Some (Some err, [])
      | (val, None) =>
          if mu s then None else
          match nodesByID s !! NodeID update with
          | None => Some (None, [])
          | Some n =>
              match watcherMap s (valueWatchers n)
                      !! StringInt_String (Property update) with
              | None => Some (None, [])
              | Some cbs =>
                  Some (None,
                        List.map (fun c => (c, val))
                          (List.filter ready
                             (elements (watcherSet s cbs))))
              end
          end
      end
  end.

(** *** handleWriteValueResp *)
Definition handleWriteValueResp (payload : bytes) (s : State)
  : option (State * error) :=
  match WriteValueResp_UnmarshalJSON payload zero_WriteValueResp with
  | (Some err, _) => Some (s, Some err)
  | (None, resp) =>
      if mu s then None else
      match setAttr s !! wv_ValueID resp with
      | None => Some (s, None)
      | Some wait =>
          if negb (wv_Success resp) then
            let err := ErrWriteNotSuccessful (wv_Message resp) in
            match send_wait wait (Some err) s with
            | Some s' => Some (s', Some err)
            | None => None
            end
          else
            match send_wait wait None s with
            | Some s' => Some (s', None)
            | None => None
            end
      end
  end.

(** *** handleGetNodesResp *)

(** The [Node] built for a response entry; [vw] is the fresh
    [valueWatchers] map. *)
Definition newNode (n : api.Node) (vw : ref) : Node :=
  {| Node_api := n;
     valuesByProperty :=
       fold_left
         (fun m kv => <[StringInt_String (Property (snd kv)) := snd kv]> m)
         (Values n) ∅;
     valuesByID :=
       fold_left (fun m kv => <[ID (snd kv) := snd kv]> m) (Values n) ∅;
     valueWatchers := vw |}.

(** [for _, n := range resp.Result { ... }; return nil] *)
Fixpoint handleGetNodesResp_range (result : list api.Node) (s : State)
  : State * error :=
  match result with
  | [] => (s, None)
  | n :: rest =>
      if Failed n then handleGetNodesResp_range rest s
      else
        match nodesByName s !! Name n with
        | Some _ => (s, Some (ErrDuplicateNodeName (Name n)))
        | None =>
            let vw := next s in
            let node := newNode n vw in
            let s1 :=
              set_watcherMaps (<[vw := ∅]> (watcherMaps s))
                (set_next (Pos.succ (next s)) s) in
            let s2 :=
              if negb (Name n =? EmptyString)
              then set_nodesByName (<[Name n := node]> (nodesByName s1)) s1
              else s1 in
            let s3 :=
              set_nodesByID (<[Node_ID n := node]> (nodesByID s2)) s2 in
            handleGetNodesResp_range rest s3
        end
  end.

(** The function literal called at the top of [handleGetNodesResp]. *)
Definition handleGetNodesResp_func (payload : bytes) (s : State)
  : option (State * error) :=
  match Unmarshal_GetNodesResp payload zero_GetNodesResp with
  | (Some err, _) => Some (s, Some (ErrParseGetNodes err))
  | (None, resp) =>
      if negb (gn_Success resp) then Some (s, Some ErrUnsuccessfulGetNodes)
      else if mu s then None
      else
        (* both maps are emptied key by key *)
        Some (handleGetNodesResp_range (Result resp)
                (set_nodesByID ∅ (set_nodesByName ∅ s)))
  end.

(** [func (b *Broker) handleGetNodesResp(payload []byte) error].
    [receiver] tells whether a [GetNodes] call is blocked receiving from
    [b.gotNodes] when the [select] runs; the second component of the
    result is the error handed to it, if any. *)
Definition handleGetNodesResp (payload : bytes) (receiver : bool)
    (s : State) : option (State * (error * option error)) :=
  match handleGetNodesResp_func payload s with
  | None => None
  | Some (s', err) =>
      Some (s', (err, if receiver then Some err else None))
  end.

End Broker.

(** ** The broker and its callers as a transition system

    The goroutines that are inside [SetAttr] or [GetNodes], and the events
    that move the system: a call being made, a goroutine taking its next
    transition, a message arriving on one of the three subscriptions. *)

Inductive thread :=
| thread_SetAttr (pc : SetAttr_pc)
| thread_GetNodes (pc : GetNodes_pc).

Record System := {
  state : State;
  threads : gmap nat thread;
}.

Inductive event :=
| call_SetAttr (t : nat) (nodeName property : string) (value : any)
| call_GetNodes (t : nat) (ctx_is_nil : bool)
| run (t : nat) (o : select_case)
| call_WatchValue (nodeName property : string) (v : chan_any)
| call_cancel (c : cancelFunc)
| recv_GetNodesResp (payload : bytes) (receiver : option nat)
| recv_WriteValueResp (payload : bytes)
| recv_NodeValueUpdated (payload : bytes) (ready : chan_any -> bool).

(** What an event lets its environment see. *)
Inductive observation :=
| obs_none
| obs_WatchValue (c : option cancelFunc) (err : error)
| obs_handler (err : error)
| obs_NodeValueUpdated (err : error) (sends : list (chan_any * any)).

Section Machine.
Context `{EncodingJSON}.

Definition step (e : event) (sys : System)
  : option (System * observation) :=
  match e with
  | call_SetAttr t nodeName property value =>
      match threads sys !! t with
      | Some _ => None
      | None =>
          Some ({| state := state sys;
                   threads :=
                     <[t := thread_SetAttr
                              (SetAttr_start nodeName property value)]>
                       (threads sys) |}, obs_none)
      end
  | call_GetNodes t ctx_is_nil =>
      match threads sys !! t with
      | Some _ => None
      | None =>
          Some ({| state := state sys;
                   threads :=
                     <[t := thread_GetNodes (GetNodes_start ctx_is_nil)]>
                       (threads sys) |}, obs_none)
      end
  | run t o =>
      match threads sys !! t with
      | Some (thread_SetAttr pc) =>
          match SetAttr_step o pc (state sys) with
          | Some (s', pc') =>
              Some ({| state := s';
                       threads :=
                         <[t := thread_SetAttr pc']> (threads sys) |},
                    obs_none)
          | None => None
          end
      | Some (thread_GetNodes pc) =>
          match GetNodes_step o pc (state sys) with
          | Some (s', pc') =>
              Some ({| state := s';
                       threads :=
                         <[t := thread_GetNodes pc']> (threads sys) |},
                    obs_none)
          | None => None
          end
      | None => None
      end
  | call_WatchValue nodeName property v =>
      match WatchValue nodeName property v (state sys) with
      | Some (s', (c, err)) =>
          Some ({| state := s'; threads := threads sys |},
                obs_WatchValue c err)
      | None => None
      end
  | call_cancel c =>
      match cancel c (state sys) with
      | Some s' =>
          Some ({| state := s'; threads := threads sys |}, obs_none)
      | None => None
      end
  | recv_GetNodesResp payload None =>
      match handleGetNodesResp payload false (state sys) with
      | Some (s', (err, _)) =>
          Some ({| state := s'; threads := threads sys |},
                obs_handler err)
      | None => None
      end
  | recv_GetNodesResp payload (Some t) =>
      match threads sys !! t with
      | Some (thread_GetNodes pc) =>
          match handleGetNodesResp payload true (state sys) with
          | Some (s', (err, Some sent)) =>
              match GetNodes_recv sent pc with
              | Some pc' =>
                  Some ({| state := s';
                           threads :=
                             <[t := thread_GetNodes pc']> (threads sys) |},
                        obs_handler err)
              | None => None
              end
          | _ => None
          end
      | _ => None
      end
  | recv_WriteValueResp payload =>
      match handleWriteValueResp payload (state sys) with
      | Some (s', err) =>
          Some ({| state := s'; threads := threads sys |},
                obs_handler err)
      | None => None
      end
  | recv_NodeValueUpdated payload ready =>
      match handleNodeValueUpdated payload ready (state sys) with
      | Some (err, sends) =>
          Some (sys, obs_NodeValueUpdated err sends)
      | None => None
      end
  end.

(** A run: [None] when some event of the list cannot take place. *)
Fixpoint exec (tr : list event) (sys : System)
  : option (System * list observation) :=
  match tr with
  | [] => Some (sys, [])
  | e :: tr' =>
      match step e sys with
      | None => None
      | Some (sys', o) =>
          match exec tr' sys' with
          | None => None
          | Some (sys'', os) => Some (sys'', o :: os)
          end
      end
  end.

End Machine.



(** ** Messages used in the examples

    A small table of JSON texts and of what encoding/json decodes them to,
    so that the definitions above can be run on concrete traffic.  In the
    texts an apostrophe stands for the double quote of JSON; [dq] puts the
    double quotes back. *)

Module Fixture.

Fixpoint dq (s : string) : string :=
  match s with
  | EmptyString => EmptyString
  | String c s' =>
      String (if Ascii.eqb c (Ascii.ascii_of_nat 39)
              then Ascii.ascii_of_nat 34 else c) (dq s')
  end.

Fixpoint decode {T : Type} (table : list (bytes * T)) (data : bytes)
    (v : T) : error * T :=
  match table with
  | [] => (Some (ExternalError "json: text outside the table"), v)
  | (text, x) :: table' =>
      if dq text =? data then (None, x) else decode table' data v
  end.

(** The device of the example scenario of the specification, and two
    more. *)
Definition currentValue (nodeId : Z) (raw : bytes) : Value :=
  {| ID := "38-0-currentValue"; NodeID := nodeId; CommandClass := 38;
     Endpoint := 0;
     Property := {| StringInt_s := "currentValue"; StringInt_i := 0 |};
     Type_ := "number"; RawValue := raw |}.

Definition device (id : Z) (name : string) (failed : bool) (raw : bytes)
  : api.Node :=
  {| Node_ID := id; Name := name; Failed := failed;
     Values := [("38-0-currentValue", currentValue id raw)] |}.

Definition value_text :=
  "{'id':'38-0-currentValue','nodeId':4,'commandClass':38,'endpoint':0,'property':'currentValue','type':'number'}".

(** Bootstrap responses. *)
Definition boot_kitchen := dq
  ("{'success':true,'result':[{'id':4,'name':'kitchen-light','failed':false,'values':{'38-0-currentValue':"
     ++ value_text ++ "}}]}").

Definition boot_den := dq
  "{'success':true,'result':[{'id':4,'name':'kitchen-light','failed':true,'values':{'38-0-currentValue':{'id':'38-0-currentValue','nodeId':4,'commandClass':38,'endpoint':0,'property':'currentValue','type':'number'}}},{'id':9,'name':'den','failed':false,'values':{'38-0-currentValue':{'id':'38-0-currentValue','nodeId':9,'commandClass':38,'endpoint':0,'property':'currentValue','type':'number'}}}]}".

Definition boot_twins := dq
  "{'success':true,'result':[{'id':5,'name':'hall','failed':false,'values':{'38-0-currentValue':{'id':'38-0-currentValue','nodeId':5,'commandClass':38,'endpoint':0,'property':'currentValue','type':'number'}}},{'id':6,'name':'hall','failed':false,'values':{'38-0-currentValue':{'id':'38-0-currentValue','nodeId':6,'commandClass':38,'endpoint':0,'property':'currentValue','type':'number'}}}]}".

(** Write requests and acknowledgements for [kitchen-light]. *)
Definition vid_kitchen : ValueID :=
  {| vid_NodeID := 4; vid_CommandClass := 38; vid_Endpoint := 0;
     vid_Property := "currentValue" |}.

Definition vid_text :=
  "{'nodeId':4,'commandClass':38,'endpoint':0,'property':'currentValue'}".

Definition write_text (n : Z) : string :=
  "{'args':[" ++ vid_text ++ "," ++ Itoa n ++ "]}".

Definition ack_text (success message : string) (n : Z) : string :=
  "{'success':" ++ success ++ ",'message':'" ++ message ++ "','args':["
    ++ vid_text ++ "," ++ Itoa n ++ "]}".

Definition ack_ok_10 := dq (ack_text "true" "Success zwave api call" 10).
Definition ack_failed_20 := dq (ack_text "false" "X" 20).

(** Change notifications. *)
Definition snapshot_text (id : string) : string :=
  "{'id':" ++ id
    ++ ",'name':'kitchen-light','values':{'38-0-currentValue':{'id':'38-0-currentValue','nodeId':"
    ++ id
    ++ ",'commandClass':38,'endpoint':0,'property':'currentValue','type':'number','value':50}}}".

Definition delta_text (property : string) : string :=
  "{'commandClassName':'Multilevel Switch','commandClass':38,'endpoint':0,'property':'"
    ++ property ++ "','newValue':50,'prevValue':10,'propertyName':'"
    ++ property ++ "'}".

Definition update_text (id : string) (property : string) : string :=
  "{'data':[" ++ snapshot_text id ++ "," ++ delta_text property ++ "]}".

Definition update_kitchen := dq (update_text "4" "currentValue").
Definition update_stranger := dq (update_text "7" "currentValue").
Definition update_no_value := dq (update_text "4" "targetValue").

Definition delta (property : string) : updateDescriptor :=
  {| upd_CommandClass := 38; upd_Endpoint := 0;
     upd_Property := {| StringInt_s := property; StringInt_i := 0 |};
     upd_PropertyKey := EmptyString |}.

#[export] Instance json : EncodingJSON := {|
  Unmarshal_int := decode [("10", 10); ("20", 20); ("50", 50)];
  Unmarshal_bool := decode [("true", true); ("false", false)];
  Unmarshal_string := decode [(dq "'on'", "on")];
  Unmarshal_unit :=
    decode [(dq "{'value':2,'unit':'seconds'}", "seconds");
            (dq "{'value':2,'unit':'minutes'}", "minutes");
            (dq "{'value':0,'unit':'default'}", "default")];
  Unmarshal_GetNodesResp :=
    decode
      [(boot_kitchen,
        {| gn_Success := true; gn_Message := EmptyString;
           Result := [device 4 "kitchen-light" false EmptyString] |});
       (boot_den,
        {| gn_Success := true; gn_Message := EmptyString;
           Result := [device 4 "kitchen-light" true EmptyString;
                      device 9 "den" false EmptyString] |});
       (boot_twins,
        {| gn_Success := true; gn_Message := EmptyString;
           Result := [device 5 "hall" false EmptyString;
                      device 6 "hall" false EmptyString] |})];
  Unmarshal_writeValueObj :=
    decode
      [(ack_ok_10,
        {| obj_Success := true; obj_Message := "Success zwave api call";
           obj_Args := [dq vid_text; "10"] |});
       (ack_failed_20,
        {| obj_Success := false; obj_Message := "X";
           obj_Args := [dq vid_text; "20"] |})];
  Unmarshal_ValueID := decode [(dq vid_text, vid_kitchen)];
  Unmarshal_data :=
    decode
      [(update_kitchen,
        [dq (snapshot_text "4"); dq (delta_text "currentValue")]);
       (update_stranger,
        [dq (snapshot_text "7"); dq (delta_text "currentValue")]);
       (update_no_value,
        [dq (snapshot_text "4"); dq (delta_text "targetValue")])];
  Unmarshal_Node :=
    decode
      [(dq (snapshot_text "4"), device 4 "kitchen-light" false "50");
       (dq (snapshot_text "7"), device 7 "kitchen-light" false "50")];
  Unmarshal_updateDescriptor :=
    decode
      [(dq (delta_text "currentValue"), delta "currentValue");
       (dq (delta_text "targetValue"), delta "targetValue")];
  Marshal_APIArgs := fun msg =>
    match Args msg with
    | [any_ValueID vid; any_int n] =>
        if decide (vid = vid_kitchen) then (dq (write_text n), None)
        else (EmptyString,
              Some (ExternalError "json: value outside the table"))
    | _ => (EmptyString,
            Some (ExternalError "json: unsupported type"))
    end;
|}.

(** A transport that accepts every publication. *)
Definition transport : Publisher := fun _ _ => None.

(** The broker of the example scenario: started, then bootstrapped with
    [boot_kitchen]. *)
Definition kitchen : State :=
  match handleGetNodesResp boot_kitchen false (NewBroker transport) with
  | Some (s, _) => s
  | None => NewBroker transport
  end.

Definition after (tr : list event) (s : State) : State :=
  match exec tr {| state := s; threads := ∅ |} with
  | Some (sys, _) => state sys
  | None => s
  end.

(** [kitchen] with one [SetAttr] call blocked in its [select]: the call
    wrote 10 to [kitchen-light]. *)
Definition inflight : State :=
  after [call_SetAttr 1 "kitchen-light" "currentValue" (any_int 10);
         run 1 case_recv; run 1 case_recv] kitchen.

(** [kitchen] with channel 7 watching the property of [kitchen-light]; the
    closure returned captures the watcher set 2. *)
Definition watching : State :=
  after [call_WatchValue "kitchen-light" "currentValue" 7%positive] kitchen.

Definition cancel_7 : cancelFunc :=
  {| cancel_w := 2%positive; cancel_v := 7%positive |}.


(** [kitchen] after the response [boot_den]. *)
Definition den : State :=
  after [recv_GetNodesResp boot_den None] kitchen.

Definition deadline : Err := ExternalError "context deadline exceeded".

Definition write_topic := "_CLIENTS/ZWAVE_GATEWAY/api/writeValue/set".

(** Two calls write to the same property; the second registers while the
    first is still in flight, then the deadline of the first fires. *)
Definition overlapping_calls : list event :=
  [call_SetAttr 1 "kitchen-light" "currentValue" (any_int 10);
   run 1 case_recv;
   call_SetAttr 2 "kitchen-light" "currentValue" (any_int 20);
   run 2 case_recv;
   run 1 case_recv;
   run 1 (case_ctx_Done deadline)].

(** The first call writes 10 and gives up at its deadline; the second
    call then writes 20 to the same property; the gateway's answer to the
    first request arrives. *)
Definition late_ack : list event :=
  [call_SetAttr 1 "kitchen-light" "currentValue" (any_int 10);
   run 1 case_recv;
   run 1 case_recv;
   run 1 (case_ctx_Done deadline);
   run 1 case_recv;
   call_SetAttr 2 "kitchen-light" "currentValue" (any_int 20);
   run 2 case_recv;
   run 2 case_recv;
   recv_WriteValueResp ack_ok_10;
   run 2 case_recv;
   run 2 case_recv].

Definition start (s : State) : System :=
  {| state := s; threads := ∅ |}.

End Fixture.

(** ** Vocabulary of the statements *)

(** One pass of the loop of [handleGetNodesResp] over an entry that is
    neither failed nor a duplicate. *)
Definition install (n : api.Node) (s : State) : State :=
  let node := newNode n (next s) in
  let s1 :=
    set_watcherMaps (<[next s := ∅]> (watcherMaps s))
      (set_next (Pos.succ (next s)) s) in
  let s2 :=
    if negb (Name n =? EmptyString)
    then set_nodesByName (<[Name n := node]> (nodesByName s1)) s1
    else s1 in
  set_nodesByID (<[Node_ID n := node]> (nodesByID s2)) s2.

(** The entries of a response that are not marked failed, and the names
    under which they are to be indexed. *)
Definition live (result : list api.Node) : list api.Node :=
  List.filter (fun n => negb (Failed n)) result.

Definition live_names (result : list api.Node) : list string :=
  List.filter (fun name => negb (name =? EmptyString))
    (List.map Name (live result)).

(** The key under which a call inside [SetAttr] has registered its
    channel: none before the registration and after the return. *)
Definition SetAttr_key (pc : SetAttr_pc) : option ValueID :=
  match pc with
  | SetAttr_start _ _ _ => None
  | SetAttr_publish vid _ _ => Some vid
  | SetAttr_select vid _ => Some vid
  | SetAttr_deferred vid _ => Some vid
  | SetAttr_return _ => None
  end.


(** The watcher set [w] is held by the [valueWatchers] map of a node of the
    directory. *)
Definition indexed (n : Node) (s : State) : Prop :=
  (exists name, nodesByName s !! name = Some n) \/
  (exists id, nodesByID s !! id = Some n).

Definition referenced (w : ref) (s : State) : Prop :=
  exists n property,
    indexed n s /\ watcherMap s (valueWatchers n) !! property = Some w.

(** Every watcher set that the directory refers to has been allocated. *)
Definition allocated (s : State) : Prop :=
  forall w, referenced w s -> (w < next s)%positive.

(** The directory emptied, as [handleGetNodesResp] does before its loop. *)
Definition cleared (s : State) : State :=
  set_nodesByID ∅ (set_nodesByName ∅ s).

(** ** Vocabulary of the further properties *)

(** The last value of a [Values] listing whose key is [k]: what a loop
    that visits the values in the order of the listing leaves under [k].
    Go does not fix that order, so this function serves the proofs only. *)
Fixpoint Values_last (key : Value -> string) (vs : list (string * Value))
    (k : string) : option Value :=
  match vs with
  | [] => None
  | (_, v) :: vs' =>
      match Values_last key vs' k with
      | Some v' => Some v'
      | None => if key v =? k then Some v else None
      end
  end.

(** The composite identifier that [Value.WriteValue] builds for a value. *)
Definition ValueID_of (v : Value) : ValueID :=
  {| vid_NodeID := NodeID v; vid_CommandClass := CommandClass v;
     vid_Endpoint := Endpoint v;
     vid_Property := StringInt_String (Property v) |}.

(** The channels of the pending-write table have been made, and no channel
    serves two keys. *)
Definition channels_distinct (s : State) : Prop :=
  (forall k w, setAttr s !! k = Some w -> (w < next s)%positive) /\
  (forall k k' w,
     setAttr s !! k = Some w -> setAttr s !! k' = Some w -> k = k').

(** More messages for the examples: what encoding/json decodes them to is
    added to the table of [Fixture]. *)
Module Traffic.

Import Fixture.

Definition extend {T : Type} (table : list (bytes * T))
    (base : bytes -> T -> error * T) (data : bytes) (v : T) : error * T :=
  match decode table data v with
  | (None, x) => (None, x)
  | (Some _, _) => base data v
  end.

(** A bootstrap response that reports failure. *)
Definition boot_refused := dq
  "{'success':false,'message':'driver not ready','result':[]}".

(** An acknowledgement for a property of device 9. *)
Definition vid_den : ValueID :=
  {| vid_NodeID := 9; vid_CommandClass := 38; vid_Endpoint := 0;
     vid_Property := "currentValue" |}.

Definition vid_den_text :=
  "{'nodeId':9,'commandClass':38,'endpoint':0,'property':'currentValue'}".

Definition ack_den := dq
  ("{'success':true,'message':'Success zwave api call','args':["
     ++ vid_den_text ++ ",5]}").

Definition den_write_text (n : Z) : string :=
  "{'args':[" ++ vid_den_text ++ "," ++ Itoa n ++ "]}".

(** A bootstrap response with two live devices. *)
Definition boot_pair := dq
  "{'success':true,'result':[{'id':4,'name':'kitchen-light','failed':false,'values':{'38-0-currentValue':{'id':'38-0-currentValue','nodeId':4,'commandClass':38,'endpoint':0,'property':'currentValue','type':'number'}}},{'id':9,'name':'den','failed':false,'values':{'38-0-currentValue':{'id':'38-0-currentValue','nodeId':9,'commandClass':38,'endpoint':0,'property':'currentValue','type':'number'}}}]}".

(** An acknowledgement with a single argument. *)
Definition ack_short := dq
  ("{'success':true,'message':'Success zwave api call','args':["
     ++ vid_text ++ "]}").

(** A notification with a single data element, and one whose value has a
    list type. *)
Definition update_short := dq
  ("{'data':[" ++ snapshot_text "4" ++ "]}").

Definition list_snapshot_text :=
  "{'id':4,'name':'kitchen-light','values':{'38-0-currentValue':{'id':'38-0-currentValue','nodeId':4,'commandClass':38,'endpoint':0,'property':'currentValue','type':'number[]','value':[1,2]}}}".

Definition update_list := dq
  ("{'data':[" ++ list_snapshot_text ++ "," ++ delta_text "currentValue"
     ++ "]}").

Definition list_value : Value :=
  {| ID := "38-0-currentValue"; NodeID := 4; CommandClass := 38;
     Endpoint := 0;
     Property := {| StringInt_s := "currentValue"; StringInt_i := 0 |};
     Type_ := "number[]"; RawValue := "[1,2]" |}.

#[export] Instance json : EncodingJSON := {|
  Unmarshal_int := Unmarshal_int (EncodingJSON := Fixture.json);
  Unmarshal_bool := Unmarshal_bool (EncodingJSON := Fixture.json);
  Unmarshal_string := Unmarshal_string (EncodingJSON := Fixture.json);
  Unmarshal_unit := Unmarshal_unit (EncodingJSON := Fixture.json);
  Unmarshal_GetNodesResp :=
    extend
      [(boot_refused,
        {| gn_Success := false; gn_Message := "driver not ready";
           Result := [] |});
       (boot_pair,
        {| gn_Success := true; gn_Message := EmptyString;
           Result := [device 4 "kitchen-light" false EmptyString;
                      device 9 "den" false EmptyString] |})]
      (Unmarshal_GetNodesResp (EncodingJSON := Fixture.json));
  Unmarshal_writeValueObj :=
    extend
      [(ack_den,
        {| obj_Success := true; obj_Message := "Success zwave api call";
           obj_Args := [dq vid_den_text; "5"] |});
       (ack_short,
        {| obj_Success := true; obj_Message := "Success zwave api call";
           obj_Args := [dq vid_text] |})]
      (Unmarshal_writeValueObj (EncodingJSON := Fixture.json));
  Unmarshal_ValueID :=
    extend [(dq vid_den_text, vid_den)]
      (Unmarshal_ValueID (EncodingJSON := Fixture.json));
  Unmarshal_data :=
    extend
      [(update_short, [dq (snapshot_text "4")]);
       (update_list,
        [dq list_snapshot_text; dq (delta_text "currentValue")])]
      (Unmarshal_data (EncodingJSON := Fixture.json));
  Unmarshal_Node :=
    extend
      [(dq list_snapshot_text,
        {| Node_ID := 4; Name := "kitchen-light"; Failed := false;
           Values := [("38-0-currentValue", list_value)] |})]
      (Unmarshal_Node (EncodingJSON := Fixture.json));
  Unmarshal_updateDescriptor :=
    Unmarshal_updateDescriptor (EncodingJSON := Fixture.json);
  Marshal_APIArgs := fun msg =>
    match Args msg with
    | [any_ValueID vid; any_int n] =>
        if decide (vid = vid_den) then (dq (den_write_text n), None)
        else Marshal_APIArgs (EncodingJSON := Fixture.json) msg
    | _ => Marshal_APIArgs (EncodingJSON := Fixture.json) msg
    end;
|}.

(** A broker bootstrapped with the two devices, then two calls in flight:
    one writes 10 to [kitchen-light], the other 5 to [den]. *)
Definition two_writes : list event :=
  [recv_GetNodesResp boot_pair None;
   call_SetAttr 1 "kitchen-light" "currentValue" (any_int 10);
   run 1 case_recv; run 1 case_recv;
   call_SetAttr 2 "den" "currentValue" (any_int 5);
   run 2 case_recv; run 2 case_recv].

(** A transport that refuses every publication. *)
Definition broken : Err := ExternalError "mqtt: not connected".

Definition refusing : Publisher := fun _ _ => Some broken.

End Traffic.

(** A call of [SetAttr] taking several transitions in a row, no other
    goroutine acting in between; [os] gives, for each transition, the case
    of the [select] that fires should the call be at its [select]. *)
Section Alone.
Context `{EncodingJSON}.

Fixpoint SetAttr_alone (os : list select_case) (pc : SetAttr_pc)
    (s : State) : option (State * SetAttr_pc) :=
  match os with
  | [] => Some (s, pc)
  | o :: os' =>
      match SetAttr_step o pc s with
      | Some (s', pc') => SetAttr_alone os' pc' s'
      | None => None
      end
  end.

End Alone.

(** * Properties *)

(** ** Value decoding *)

Section ValueDecoding.
Context `{EncodingJSON}.

Lemma Value_Value_number (v : Value) :
  Type_ v = TypeNumber ->
  Value_Value v =
    if (0 <? String.length (RawValue v))%nat then
      match Unmarshal_int (RawValue v) 0 with
      | (Some err, _) => (any_nil, Some (ErrParseValue (Type_ v) err))
      | (None, tv) => (any_int tv, None)
      end
    else (any_int 0, None).
Proof. intros Ht. unfold Value_Value. rewrite Ht. reflexivity. Qed.

Lemma Value_Value_bool (v : Value) :
  Type_ v = TypeBool ->
  Value_Value v =
    if (0 <? String.length (RawValue v))%nat then
      match Unmarshal_bool (RawValue v) false with
      | (Some err, _) =>
          (any_nil, Some (ErrParseBoolValue (RawValue v) (Type_ v) err))
      | (None, tv) => (any_bool tv, None)
      end
    else (any_bool false, None).
Proof. intros Ht. unfold Value_Value. rewrite Ht. reflexivity. Qed.

Lemma Value_Value_string (v : Value) :
  Type_ v = TypeString \/ Type_ v = TypeColor ->
  Value_Value v =
    match Unmarshal_string (RawValue v) EmptyString with
    | (Some err, _) => (any_nil, Some (ErrParseValue (Type_ v) err))
    | (None, tv) => (any_string tv, None)
    end.
Proof.
  intros [Ht | Ht]; unfold Value_Value; rewrite Ht; reflexivity.
Qed.

Lemma Value_Value_duration (v : Value) :
  Type_ v = TypeDuration ->
  Value_Value v =
    match Unmarshal_unit (RawValue v) EmptyString with
    | (Some err, _) => (any_nil, Some (ErrParseValue (Type_ v) err))
    | (None, unit) =>
        if unit =? DurationSeconds then (any_Duration Second, None)
        else if unit =? DurationMinutes then (any_Duration Minute, None)
        else (any_Duration 0, None)
    end.
Proof. intros Ht. unfold Value_Value. rewrite Ht. reflexivity. Qed.

Lemma Value_Value_unknown (v : Value) :
  Type_ v <> TypeNumber -> Type_ v <> TypeBool ->
  Type_ v <> TypeString -> Type_ v <> TypeColor ->
  Type_ v <> TypeDuration -> Type_ v <> TypeAny ->
  Value_Value v = (any_nil, Some (ErrUnknownValueType (Type_ v))).
Proof.
  intros H1 H2 H3 H4 H5 H6. unfold Value_Value.
  apply String.eqb_neq in H1, H2, H3, H4, H5, H6.
  rewrite H1, H2, H3, H4, H5, H6. reflexivity.
Qed.

Lemma length_pos_iff (raw : string) :
  (0 <? String.length raw)%nat = negb (raw =? EmptyString).
Proof. destruct raw; reflexivity. Qed.

End ValueDecoding.

(** C7.  [Value.Value] decodes by the declared type.  For "number" and
    "boolean" an empty raw payload gives the zero value (0, false) and a
    non-empty one gives what encoding/json decodes into an int, a bool.  For
    "string" and "color" the payload must decode into a string.  For
    "duration" the unit tag "seconds" gives exactly one second
    (1000000000 ns), "minutes" sixty seconds, any other unit 0.  For "any"
    the raw bytes are returned as they are.  The call fails, with an error
    of the TypeMismatch class, when encoding/json rejects the payload for
    the declared type and when the declared type is none of the six. *)
Theorem Value_Value_type_directed `{EncodingJSON} (v : Value) :
  (* number *)
  (Type_ v = "number" ->
     (RawValue v = EmptyString -> Value_Value v = (any_int 0, None)) /\
     (forall n, RawValue v <> EmptyString ->
        Unmarshal_int (RawValue v) 0 = (None, n) ->
        Value_Value v = (any_int n, None)) /\
     (forall e x, RawValue v <> EmptyString ->
        Unmarshal_int (RawValue v) 0 = (Some e, x) ->
        exists e', Value_Value v = (any_nil, Some e') /\
                   kind e' = Some TypeMismatch)) /\
  (* boolean *)
  (Type_ v = "boolean" ->
     (RawValue v = EmptyString -> Value_Value v = (any_bool false, None)) /\
     (forall b, RawValue v <> EmptyString ->
        Unmarshal_bool (RawValue v) false = (None, b) ->
        Value_Value v = (any_bool b, None)) /\
     (forall e x, RawValue v <> EmptyString ->
        Unmarshal_bool (RawValue v) false = (Some e, x) ->
        exists e', Value_Value v = (any_nil, Some e') /\
                   kind e' = Some TypeMismatch)) /\
  (* string, color *)
  (Type_ v = "string" \/ Type_ v = "color" ->
     (forall s, Unmarshal_string (RawValue v) EmptyString = (None, s) ->
        Value_Value v = (any_string s, None)) /\
     (forall e x, Unmarshal_string (RawValue v) EmptyString = (Some e, x) ->
        exists e', Value_Value v = (any_nil, Some e') /\
                   kind e' = Some TypeMismatch)) /\
  (* duration *)
  (Type_ v = "duration" ->
     (forall unit, Unmarshal_unit (RawValue v) EmptyString = (None, unit) ->
        (unit = "seconds" ->
           Value_Value v = (any_Duration 1000000000, None)) /\
        (unit = "minutes" ->
           Value_Value v = (any_Duration (60 * 1000000000), None)) /\
        (unit <> "seconds" -> unit <> "minutes" ->
           Value_Value v = (any_Duration 0, None))) /\
     (forall e x, Unmarshal_unit (RawValue v) EmptyString = (Some e, x) ->
        exists e', Value_Value v = (any_nil, Some e') /\
                   kind e' = Some TypeMismatch)) /\
  (* any *)
  (Type_ v = "any" ->
     Value_Value v = (any_RawMessage (RawValue v), None)) /\
  (* anything else *)
  (Type_ v <> "number" -> Type_ v <> "boolean" -> Type_ v <> "string" ->
   Type_ v <> "color" -> Type_ v <> "duration" -> Type_ v <> "any" ->
     exists e', Value_Value v = (any_nil, Some e') /\
                kind e' = Some TypeMismatch).
Proof.
  split; [|split; [|split; [|split; [|split]]]].
  - intros Ht. rewrite (Value_Value_number v Ht), length_pos_iff.
    split; [|split].
    + intros ->. reflexivity.
    + intros n Hr Hu. apply String.eqb_neq in Hr.
      rewrite Hr. simpl. rewrite Hu. reflexivity.
    + intros e x Hr Hu. apply String.eqb_neq in Hr.
      rewrite Hr. simpl. rewrite Hu. eexists. split; reflexivity.
  - intros Ht. rewrite (Value_Value_bool v Ht), length_pos_iff.
    split; [|split].
    + intros ->. reflexivity.
    + intros b Hr Hu. apply String.eqb_neq in Hr.
      rewrite Hr. simpl. rewrite Hu. reflexivity.
    + intros e x Hr Hu. apply String.eqb_neq in Hr.
      rewrite Hr. simpl. rewrite Hu. eexists. split; reflexivity.
  - intros Ht. rewrite (Value_Value_string v Ht). split.
    + intros s Hu. rewrite Hu. reflexivity.
    + intros e x Hu. rewrite Hu. eexists. split; reflexivity.
  - intros Ht. rewrite (Value_Value_duration v Ht). split.
    + intros unit Hu. rewrite Hu. split; [|split].
      * intros ->. reflexivity.
      * intros ->. reflexivity.
      * intros Hs Hm. apply String.eqb_neq in Hs, Hm.
        unfold DurationSeconds, DurationMinutes. rewrite Hs, Hm.
        reflexivity.
    + intros e x Hu. rewrite Hu. eexists. split; reflexivity.
  - intros Ht. unfold Value_Value. rewrite Ht. reflexivity.
  - intros Hn Hb Hs Hc Hd Ha.
    rewrite (Value_Value_unknown v Hn Hb Hs Hc Hd Ha).
    eexists. split; reflexivity.
Qed.

(** C10.  A value whose declared type is one of the list variants
    "number[]", "boolean[]", "string[]" is never decoded: [Value.Value]
    returns the unknown-value-type error. *)
Theorem Value_Value_list_types `{EncodingJSON} (v : Value) :
  Type_ v = TypeListNumber \/ Type_ v = TypeListBool \/
  Type_ v = TypeListString ->
  Value_Value v = (any_nil, Some (ErrUnknownValueType (Type_ v))).
Proof.
  intros [Ht | [Ht | Ht]]; unfold Value_Value; rewrite Ht; reflexivity.
Qed.

Lemma Value_Value_list_types_witness :
  let v := {| ID := "112-0-3"; NodeID := 4; CommandClass := 112;
              Endpoint := 0;
              Property := {| StringInt_s := EmptyString; StringInt_i := 3 |};
              Type_ := "number[]"; RawValue := "[1,2]" |} in
  Value_Value (H := Fixture.json) v =
    (any_nil, Some (ErrUnknownValueType "number[]")).
Proof.
  intros v. apply (Value_Value_list_types (H := Fixture.json) v).
  left. reflexivity.
Defined.

Lemma Value_Value_type_directed_witness :
  Value_Value (H := Fixture.json)
    {| ID := "44-0-duration"; NodeID := 4; CommandClass := 44;
       Endpoint := 0;
       Property := {| StringInt_s := "duration"; StringInt_i := 0 |};
       Type_ := "duration";
       RawValue := Fixture.dq "{'value':2,'unit':'minutes'}" |} =
  (any_Duration 60000000000, None).
Proof.
  pose proof (Value_Value_type_directed (H := Fixture.json)
    {| ID := "44-0-duration"; NodeID := 4; CommandClass := 44;
       Endpoint := 0;
       Property := {| StringInt_s := "duration"; StringInt_i := 0 |};
       Type_ := "duration";
       RawValue := Fixture.dq "{'value':2,'unit':'minutes'}" |})
    as (_ & _ & _ & Hd & _).
  destruct (Hd eq_refl) as [Hok _].
  destruct (Hok "minutes" eq_refl) as (_ & Hm & _).
  exact (Hm eq_refl).
Defined.

(** ** SetAttr *)

(** C5.  A [SetAttr] call for a device name that is not in the directory,
    or for a property that the device found does not have, returns an error
    of the NotFound class in its first transition, which leaves the whole
    state as it was: in particular nothing was appended to the log of
    publications, and the call, having returned, takes no further
    transition.  ([mu s = false]: no earlier call left the mutex held.) *)
Theorem SetAttr_unknown_NotFound `{EncodingJSON}
    (s : State) (nodeName property : string) (value : any)
    (o : select_case) :
  mu s = false ->
  nodesByName s !! nodeName = None \/
  (exists n, nodesByName s !! nodeName = Some n /\
             valuesByProperty n !! property = None) ->
  exists err,
    SetAttr_step o (SetAttr_start nodeName property value) s =
      Some (s, SetAttr_return (Some err)) /\
    kind err = Some NotFound /\
    (forall o' s', SetAttr_step o' (SetAttr_return (Some err)) s' = None).
Proof.
  intros Hmu [Hn | (n & Hn & Hp)].
  - exists (ErrNodeNotFound nodeName). simpl.
    rewrite Hmu, Hn. repeat split.
  - exists (ErrNoAttribute nodeName property). simpl.
    rewrite Hmu, Hn, Hp. repeat split.
Qed.

Lemma SetAttr_unknown_NotFound_witness :
  exists err,
    SetAttr_step (H := Fixture.json) case_recv
      (SetAttr_start "kitchen-light" "targetValue" (any_int 50))
      Fixture.kitchen =
      Some (Fixture.kitchen, SetAttr_return (Some err)) /\
    kind err = Some NotFound /\
    (forall o' s',
       SetAttr_step (H := Fixture.json) o' (SetAttr_return (Some err)) s'
       = None).
Proof.
  apply (SetAttr_unknown_NotFound (H := Fixture.json)).
  - reflexivity.
  - right. eexists. split; vm_compute; reflexivity.
Defined.

(** C6.  Let a [SetAttr] call be blocked in its [select], its channel
    [wait] registered under the key [vid] and empty.  When an
    acknowledgement for [vid] arrives, [handleWriteValueResp] sends on
    [wait], the call receives, runs its deferred function and returns: nil
    if the acknowledgement says [success:true], and if it says
    [success:false] the error "write value response not successful: X",
    X being the message of the acknowledgement. *)
Theorem ack_unblocks_SetAttr `{EncodingJSON}
    (s : State) (payload : bytes) (resp : WriteValueResp)
    (wait : chan_error) (o : select_case) :
  mu s = false ->
  WriteValueResp_UnmarshalJSON payload zero_WriteValueResp = (None, resp) ->
  setAttr s !! wv_ValueID resp = Some wait ->
  waitBuf s wait = [] ->
  let ret :=
    if wv_Success resp then None
    else Some (ErrWriteNotSuccessful (wv_Message resp)) in
  exists s1 s2 s3,
    handleWriteValueResp payload s = Some (s1, ret) /\
    SetAttr_step case_recv (SetAttr_select (wv_ValueID resp) wait) s1 =
      Some (s2, SetAttr_deferred (wv_ValueID resp) ret) /\
    SetAttr_step o (SetAttr_deferred (wv_ValueID resp) ret) s2 =
      Some (s3, SetAttr_return ret) /\
    (wv_Success resp = true -> ret = None) /\
    (wv_Success resp = false ->
       exists e, ret = Some e /\ kind e = Some RemoteFailure /\
         e = ErrWriteNotSuccessful (wv_Message resp)).
Proof.
  intros Hmu Hdec Hreg Hbuf ret.
  unfold handleWriteValueResp. rewrite Hdec, Hmu, Hreg.
  unfold send_wait. rewrite Hbuf.
  assert (Hrecv : forall e,
    SetAttr_step case_recv (SetAttr_select (wv_ValueID resp) wait)
      (set_waitBufs (<[wait := [e]]> (waitBufs s)) s) =
    Some (set_waitBufs
            (<[wait := []]> (<[wait := [e]]> (waitBufs s)))
            (set_waitBufs (<[wait := [e]]> (waitBufs s)) s),
          SetAttr_deferred (wv_ValueID resp) e)).
  { intros e. unfold SetAttr_step, waitBuf. simpl.
    rewrite lookup_insert_eq. reflexivity. }
  assert (Hdefer : forall m r,
    SetAttr_step o (SetAttr_deferred (wv_ValueID resp) r)
      (set_waitBufs m (set_waitBufs (<[wait := [r]]> (waitBufs s)) s)) =
    Some (set_setAttr (delete (wv_ValueID resp) (setAttr s))
            (set_waitBufs m
               (set_waitBufs (<[wait := [r]]> (waitBufs s)) s)),
          SetAttr_return r)).
  { intros m r. unfold SetAttr_step. simpl. rewrite Hmu. reflexivity. }
  subst ret. destruct (wv_Success resp) eqn:Hs; simpl.
  - eexists _, _, _. split; [reflexivity|].
    split; [apply Hrecv|]. split; [apply Hdefer|].
    split; [reflexivity|discriminate].
  - eexists _, _, _. split; [reflexivity|].
    split; [apply Hrecv|]. split; [apply Hdefer|].
    split; [discriminate|]. intros _. eexists. repeat split.
Qed.

Lemma ack_unblocks_SetAttr_witness :
  exists s1 s2 s3,
    handleWriteValueResp (H := Fixture.json) Fixture.ack_ok_10
      Fixture.inflight = Some (s1, None) /\
    SetAttr_step (H := Fixture.json) case_recv
      (SetAttr_select Fixture.vid_kitchen 2%positive) s1 =
      Some (s2, SetAttr_deferred Fixture.vid_kitchen None) /\
    SetAttr_step (H := Fixture.json) case_recv
      (SetAttr_deferred Fixture.vid_kitchen None) s2 =
      Some (s3, SetAttr_return None).
Proof.
  destruct (ack_unblocks_SetAttr (H := Fixture.json) Fixture.inflight
              Fixture.ack_ok_10
              {| wv_Success := true; wv_Message := "Success zwave api call";
                 wv_ValueID := Fixture.vid_kitchen; wv_Value := "10" |}
              2%positive case_recv)
    as (s1 & s2 & s3 & H1 & H2 & H3 & _).
  - reflexivity.
  - vm_compute. reflexivity.
  - vm_compute. reflexivity.
  - vm_compute. reflexivity.
  - exists s1, s2, s3. split; [exact H1|]. split; [exact H2|exact H3].
Defined.

(** ** Change notifications *)

(** C9, as stated, fails on its second half: a notification for a device id
    that the directory does not know is ignored without any error.  Here the
    directory holds device 4 only, the notification is for device 7, and
    the handler returns nil. *)
Lemma unknown_device_is_not_an_error :
  nodesByID Fixture.kitchen !! 7 = None /\
  NodeID (snd (NodeValueUpdate_UnmarshalJSON (H := Fixture.json)
                 Fixture.update_stranger zero_Value)) = 7 /\
  handleNodeValueUpdated (H := Fixture.json) Fixture.update_stranger
    (fun _ => true) Fixture.kitchen = Some (None, []).
Proof. vm_compute. repeat split. Qed.

(** C9, amended.  The identifier derived from the delta descriptor is
    commandClass-endpoint-property, followed by -propertyKey when the key
    is not empty.  When the snapshot of the notification has no value under
    that identifier, the handler fails with an error of the NotFound class
    and sends nothing.  When the notification decodes and its value decodes
    ([Value.Value] returns no error), but the device id of the value is not
    in the directory, the handler returns nil and sends nothing. *)
Theorem handleNodeValueUpdated_lookup_failures `{EncodingJSON}
    (s : State) (payload : bytes) (ready : chan_any -> bool) :
  (forall update,
     let id :=
       Itoa (upd_CommandClass update) ++ "-" ++
       Itoa (upd_Endpoint update) ++ "-" ++
       StringInt_String (upd_Property update) in
     (upd_PropertyKey update = EmptyString -> update_id update = id) /\
     (upd_PropertyKey update <> EmptyString ->
        update_id update = id ++ "-" ++ upd_PropertyKey update)) /\
  (forall data0 data1 node update,
     Unmarshal_data payload [] = (None, [data0; data1]) ->
     Unmarshal_Node data0 zero_Node = (None, node) ->
     Unmarshal_updateDescriptor data1 zero_updateDescriptor
       = (None, update) ->
     Values_lookup (Values node) (update_id update) = None ->
     handleNodeValueUpdated payload ready s =
       Some (Some (ErrUpdateValueNotFound (update_id update)), []) /\
     kind (ErrUpdateValueNotFound (update_id update)) = Some NotFound) /\
  (forall update val,
     mu s = false ->
     NodeValueUpdate_UnmarshalJSON payload zero_Value = (None, update) ->
     Value_Value update = (val, None) ->
     nodesByID s !! NodeID update = None ->
     handleNodeValueUpdated payload ready s = Some (None, [])).
Proof.
  split; [|split].
  - intros update id. unfold update_id. split; intros Hk.
    + rewrite Hk. reflexivity.
    + apply String.eqb_neq in Hk. rewrite Hk. reflexivity.
  - intros data0 data1 node update Hd Hn Hu Hl.
    unfold handleNodeValueUpdated, NodeValueUpdate_UnmarshalJSON.
    rewrite Hd, Hn, Hu, Hl. split; reflexivity.
  - intros update val Hmu Hd Hv Hn.
    unfold handleNodeValueUpdated. rewrite Hd, Hv, Hmu, Hn. reflexivity.
Qed.

Lemma handleNodeValueUpdated_lookup_failures_witness :
  handleNodeValueUpdated (H := Fixture.json) Fixture.update_no_value
    (fun _ => true) Fixture.kitchen =
    Some (Some (ErrUpdateValueNotFound "38-0-targetValue"), []) /\
  handleNodeValueUpdated (H := Fixture.json) Fixture.update_stranger
    (fun _ => true) Fixture.kitchen = Some (None, []).
Proof.
  destruct (handleNodeValueUpdated_lookup_failures (H := Fixture.json)
              Fixture.kitchen Fixture.update_no_value (fun _ => true))
    as (_ & Hmiss & _).
  destruct (handleNodeValueUpdated_lookup_failures (H := Fixture.json)
              Fixture.kitchen Fixture.update_stranger (fun _ => true))
    as (_ & _ & Hid).
  split.
  - apply (Hmiss (Fixture.dq (Fixture.snapshot_text "4"))
             (Fixture.dq (Fixture.delta_text "targetValue"))
             (Fixture.device 4 "kitchen-light" false "50")
             (Fixture.delta "targetValue"));
      vm_compute; reflexivity.
  - apply (Hid (Fixture.currentValue 7 "50") (any_int 50));
      vm_compute; reflexivity.
Defined.

(** ** Bootstrap *)

Section Bootstrap.
Context `{EncodingJSON}.

Lemma range_cons (n : api.Node) (rest : list api.Node) (s : State) :
  handleGetNodesResp_range (n :: rest) s =
    if Failed n then handleGetNodesResp_range rest s
    else match nodesByName s !! Name n with
         | Some _ => (s, Some (ErrDuplicateNodeName (Name n)))
         | None => handleGetNodesResp_range rest (install n s)
         end.
Proof. reflexivity. Qed.

Lemma nodesByID_install (n : api.Node) (s : State) :
  nodesByID (install n s) =
    <[Node_ID n := newNode n (next s)]> (nodesByID s).
Proof.
  unfold install. destruct (negb (Name n =? EmptyString)); reflexivity.
Qed.

Lemma nodesByName_install (n : api.Node) (s : State) :
  nodesByName (install n s) =
    if negb (Name n =? EmptyString)
    then <[Name n := newNode n (next s)]> (nodesByName s)
    else nodesByName s.
Proof.
  unfold install. destruct (negb (Name n =? EmptyString)); reflexivity.
Qed.

(** The loop over a concatenation. *)
Lemma range_app (pre post : list api.Node) (s : State) :
  handleGetNodesResp_range (pre ++ post)%list s =
    match handleGetNodesResp_range pre s with
    | (s1, None) => handleGetNodesResp_range post s1
    | (s1, Some err) => (s1, Some err)
    end.
Proof.
  revert s. induction pre as [|n pre IH]; intros s; [reflexivity|].
  rewrite <- app_comm_cons, !range_cons.
  destruct (Failed n); [apply IH|].
  destruct (nodesByName s !! Name n); [reflexivity|apply IH].
Qed.

(** A name that is indexed stays indexed, with the same node, as long as
    the loop goes on: a second entry of that name stops it. *)
Lemma range_keeps_names (result : list api.Node) :
  forall s s' name node,
    handleGetNodesResp_range result s = (s', None) ->
    nodesByName s !! name = Some node ->
    nodesByName s' !! name = Some node.
Proof.
  induction result as [|n rest IH]; intros s s' name node Hr Hs.
  - injection Hr as <-. exact Hs.
  - rewrite range_cons in Hr. destruct (Failed n); [eauto|].
    destruct (nodesByName s !! Name n) eqn:Hn; [discriminate|].
    eapply IH; [exact Hr|]. rewrite nodesByName_install.
    destruct (negb (Name n =? EmptyString)); [|exact Hs].
    rewrite lookup_insert_ne; [exact Hs|]. congruence.
Qed.

(** Where the by-name index of the result comes from. *)
Lemma range_names_origin (result : list api.Node) :
  forall s s' name node,
    handleGetNodesResp_range result s = (s', None) ->
    nodesByName s' !! name = Some node ->
    nodesByName s !! name = Some node \/
    (name <> EmptyString /\
     exists n vw, In n result /\ Failed n = false /\ Name n = name /\
                  node = newNode n vw).
Proof.
  induction result as [|n rest IH]; intros s s' name node Hr Hs'.
  - injection Hr as <-. left. exact Hs'.
  - rewrite range_cons in Hr. destruct (Failed n) eqn:Hf.
    + destruct (IH _ _ _ _ Hr Hs') as [Hs | (Hne & m & vw & Hin & Hm)];
        [left; exact Hs|].
      right. split; [exact Hne|]. exists m, vw. split; [now right|exact Hm].
    + destruct (nodesByName s !! Name n) eqn:Hn; [discriminate|].
      destruct (IH _ _ _ _ Hr Hs') as [Hs | (Hne & m & vw & Hin & Hm)].
      * rewrite nodesByName_install in Hs.
        destruct (Name n =? EmptyString) eqn:He; simpl in Hs;
          [left; exact Hs|].
        destruct (decide (Name n = name)) as [Heq | Hneq].
        -- subst name. rewrite lookup_insert_eq in Hs.
           injection Hs as <-. right.
           apply String.eqb_neq in He. split; [exact He|].
           exists n, (next s). repeat split; try assumption. now left.
        -- rewrite lookup_insert_ne in Hs by exact Hneq. left. exact Hs.
      * right. split; [exact Hne|]. exists m, vw.
        split; [now right|exact Hm].
Qed.

(** Every live entry with a name is indexed under it. *)
Lemma range_names_installed (result : list api.Node) :
  forall s s' n,
    handleGetNodesResp_range result s = (s', None) ->
    In n result -> Failed n = false -> Name n <> EmptyString ->
    exists vw, nodesByName s' !! Name n = Some (newNode n vw).
Proof.
  induction result as [|m rest IH]; intros s s' n Hr Hin Hf Hne;
    [destruct Hin|].
  rewrite range_cons in Hr. destruct Hin as [<- | Hin].
  - rewrite Hf in Hr.
    destruct (nodesByName s !! Name m) eqn:Hn; [discriminate|].
    exists (next s). eapply range_keeps_names; [exact Hr|].
    rewrite nodesByName_install. apply String.eqb_neq in Hne.
    rewrite Hne. simpl. apply lookup_insert_eq.
  - destruct (Failed m); [eauto|].
    destruct (nodesByName s !! Name m); [discriminate|]. eauto.
Qed.

(** Where the by-id index of the result comes from. *)
Lemma range_ids_origin (result : list api.Node) :
  forall s s' id node,
    handleGetNodesResp_range result s = (s', None) ->
    nodesByID s' !! id = Some node ->
    nodesByID s !! id = Some node \/
    exists n vw, In n result /\ Failed n = false /\ Node_ID n = id /\
                 node = newNode n vw.
Proof.
  induction result as [|n rest IH]; intros s s' id node Hr Hs'.
  - injection Hr as <-. left. exact Hs'.
  - rewrite range_cons in Hr. destruct (Failed n) eqn:Hf.
    + destruct (IH _ _ _ _ Hr Hs') as [Hs | (m & vw & Hin & Hm)];
        [left; exact Hs|].
      right. exists m, vw. split; [now right|exact Hm].
    + destruct (nodesByName s !! Name n) eqn:Hn; [discriminate|].
      destruct (IH _ _ _ _ Hr Hs') as [Hs | (m & vw & Hin & Hm)].
      * rewrite nodesByID_install in Hs.
        destruct (decide (Node_ID n = id)) as [Heq | Hneq].
        -- subst id. rewrite lookup_insert_eq in Hs.
           injection Hs as <-. right.
           exists n, (next s). repeat split; try assumption. now left.
        -- rewrite lookup_insert_ne in Hs by exact Hneq. left. exact Hs.
      * right. exists m, vw. split; [now right|exact Hm].
Qed.

(** An id that no live entry carries keeps what it had. *)
Lemma range_ids_frame (result : list api.Node) :
  forall s s' id,
    handleGetNodesResp_range result s = (s', None) ->
    (forall n, In n result -> Failed n = false -> Node_ID n <> id) ->
    nodesByID s' !! id = nodesByID s !! id.
Proof.
  induction result as [|n rest IH]; intros s s' id Hr Hno.
  - injection Hr as <-. reflexivity.
  - rewrite range_cons in Hr. destruct (Failed n) eqn:Hf.
    + apply (IH _ _ _ Hr). intros m Hin. apply Hno. now right.
    + destruct (nodesByName s !! Name n); [discriminate|].
      rewrite (IH _ _ _ Hr) by (intros m Hin; apply Hno; now right).
      rewrite nodesByID_install. apply lookup_insert_ne.
      apply Hno; [now left|exact Hf].
Qed.

(** The last live entry of an id is the one indexed under it. *)
Lemma range_ids_installed (pre post : list api.Node) (n : api.Node) :
  forall s s',
    handleGetNodesResp_range (pre ++ n :: post)%list s = (s', None) ->
    Failed n = false ->
    (forall m, In m post -> Failed m = false -> Node_ID m <> Node_ID n) ->
    exists vw, nodesByID s' !! Node_ID n = Some (newNode n vw).
Proof.
  intros s s' Hr Hf Hlast. rewrite range_app in Hr.
  destruct (handleGetNodesResp_range pre s) as [s1 [err|]];
    [discriminate|].
  rewrite range_cons, Hf in Hr.
  destruct (nodesByName s1 !! Name n); [discriminate|].
  exists (next s1). rewrite (range_ids_frame _ _ _ _ Hr Hlast).
  rewrite nodesByID_install. apply lookup_insert_eq.
Qed.

Lemma range_ids_mono (result : list api.Node) :
  forall s s' id,
    handleGetNodesResp_range result s = (s', None) ->
    is_Some (nodesByID s !! id) -> is_Some (nodesByID s' !! id).
Proof.
  induction result as [|n rest IH]; intros s s' id Hr Hs.
  - injection Hr as <-. exact Hs.
  - rewrite range_cons in Hr. destruct (Failed n); [eauto|].
    destruct (nodesByName s !! Name n); [discriminate|].
    apply (IH _ _ _ Hr). rewrite nodesByID_install.
    destruct (decide (Node_ID n = id)) as [<- | Hne].
    + rewrite lookup_insert_eq. eauto.
    + rewrite lookup_insert_ne by exact Hne. exact Hs.
Qed.

(** Every live entry has its id indexed. *)
Lemma range_ids_present (result : list api.Node) :
  forall s s' n,
    handleGetNodesResp_range result s = (s', None) ->
    In n result -> Failed n = false ->
    is_Some (nodesByID s' !! Node_ID n).
Proof.
  induction result as [|m rest IH]; intros s s' n Hr Hin Hf;
    [destruct Hin|].
  rewrite range_cons in Hr. destruct Hin as [<- | Hin].
  - rewrite Hf in Hr.
    destruct (nodesByName s !! Name m); [discriminate|].
    apply (range_ids_mono _ _ _ _ Hr). rewrite nodesByID_install.
    rewrite lookup_insert_eq. eauto.
  - destruct (Failed m); [eauto|].
    destruct (nodesByName s !! Name m); [discriminate|]. eauto.
Qed.

Lemma live_names_cons (n : api.Node) (rest : list api.Node) :
  live_names (n :: rest) =
    if Failed n then live_names rest
    else if Name n =? EmptyString then live_names rest
    else Name n :: live_names rest.
Proof.
  unfold live_names, live. simpl. destruct (Failed n); simpl;
    [reflexivity|]. destruct (Name n =? EmptyString); reflexivity.
Qed.

Lemma in_live_names (result : list api.Node) (name : string) :
  In name (live_names result) ->
  name <> EmptyString /\
  exists n, In n result /\ Failed n = false /\ Name n = name.
Proof.
  unfold live_names, live. rewrite filter_In, in_map_iff.
  intros [(n & Hn & Hin) Hne]. apply filter_In in Hin as [Hin Hf].
  split.
  - apply String.eqb_neq. now apply negb_true_iff.
  - exists n. repeat split; try assumption. now apply negb_true_iff.
Qed.

(** The loop runs to its end when the names of the live entries are
    pairwise distinct and none of them is indexed yet. *)
Lemma range_succeeds (result : list api.Node) :
  forall s,
    NoDup (live_names result) ->
    nodesByName s !! EmptyString = None ->
    (forall name, In name (live_names result) ->
                  nodesByName s !! name = None) ->
    exists s', handleGetNodesResp_range result s = (s', None).
Proof.
  induction result as [|n rest IH]; intros s Hnd He Hfree;
    [eexists; reflexivity|].
  rewrite range_cons. rewrite live_names_cons in Hnd, Hfree.
  destruct (Failed n); [now apply IH|].
  destruct (Name n =? EmptyString) eqn:Hn.
  - apply String.eqb_eq in Hn. rewrite Hn, He.
    apply IH; [exact Hnd| |].
    + rewrite nodesByName_install, Hn. exact He.
    + intros name Hin. rewrite nodesByName_install, Hn. simpl.
      now apply Hfree.
  - rewrite (Hfree (Name n)) by now left.
    apply NoDup_cons in Hnd as [Hnotin Hnd].
    rewrite list_elem_of_In in Hnotin.
    apply String.eqb_neq in Hn.
    apply IH; [exact Hnd| |].
    + rewrite nodesByName_install.
      destruct (negb (Name n =? EmptyString)); [|exact He].
      rewrite lookup_insert_ne by exact Hn. exact He.
    + intros name Hin. rewrite nodesByName_install.
      destruct (negb (Name n =? EmptyString)); [|apply Hfree; now right].
      rewrite lookup_insert_ne
        by (intros Heq; apply Hnotin; rewrite Heq; exact Hin).
      apply Hfree. now right.
Qed.

End Bootstrap.

(** C1, as stated, fails on its second half.  The directory holds
    "kitchen-light" (id 4); a response arrives whose two entries are both
    named "hall" (ids 5 and 6).  The handler returns the duplicate-name
    error, and the directory has changed: "kitchen-light" and id 4 are
    gone, "hall" and id 5, from the failed response, are installed. *)
Lemma duplicate_bootstrap_replaces_directory :
  is_Some (nodesByName Fixture.kitchen !! "kitchen-light") /\
  is_Some (nodesByID Fixture.kitchen !! 4) /\
  match handleGetNodesResp (H := Fixture.json) Fixture.boot_twins false
          Fixture.kitchen with
  | Some (s', (err, _)) =>
      err = Some (ErrDuplicateNodeName "hall") /\
      nodesByName s' !! "kitchen-light" = None /\
      nodesByID s' !! 4 = None /\
      is_Some (nodesByName s' !! "hall") /\
      is_Some (nodesByID s' !! 5)
  | None => False
  end.
Proof. vm_compute. repeat split; eauto. Qed.

(** C1, amended.  Let the response be successful and let [n] be a live
    (not failed) entry whose name is not empty and is that of a live entry
    before it, the names before [n] being pairwise distinct: [n] is the
    first entry of the response that repeats a name.  Then the handler
    returns the duplicate-name error for that name (and hands it to a
    waiting [GetNodes]).  The earlier directory is not kept: the state
    left behind is the one that the loop reaches after the entries before
    [n], run on the emptied directory; both indices hold live entries that
    precede [n] and nothing else, and every one of those is indexed. *)
Theorem bootstrap_duplicate_name `{EncodingJSON}
    (s : State) (payload : bytes) (receiver : bool) (resp : GetNodesResp)
    (pre post : list api.Node) (n : api.Node) :
  mu s = false ->
  Unmarshal_GetNodesResp payload zero_GetNodesResp = (None, resp) ->
  gn_Success resp = true ->
  Result resp = (pre ++ n :: post)%list ->
  Failed n = false ->
  NoDup (live_names pre) ->
  In (Name n) (live_names pre) ->
  exists s',
    handleGetNodesResp payload receiver s =
      Some (s', (Some (ErrDuplicateNodeName (Name n)),
                 if receiver then Some (Some (ErrDuplicateNodeName (Name n)))
                 else None)) /\
    kind (ErrDuplicateNodeName (Name n)) = Some Duplicate /\
    handleGetNodesResp_range pre (cleared s) = (s', None) /\
    (forall name node, nodesByName s' !! name = Some node ->
       exists m vw, In m pre /\ Failed m = false /\ Name m = name /\
                    node = newNode m vw) /\
    (forall id node, nodesByID s' !! id = Some node ->
       exists m vw, In m pre /\ Failed m = false /\ Node_ID m = id /\
                    node = newNode m vw) /\
    (forall m, In m pre -> Failed m = false ->
       is_Some (nodesByID s' !! Node_ID m)) /\
    (forall m, In m pre -> Failed m = false -> Name m <> EmptyString ->
       exists vw, nodesByName s' !! Name m = Some (newNode m vw)).
Proof.
  intros Hmu Hdec Hok Hres Hf Hnd Hin.
  destruct (range_succeeds pre (cleared s) Hnd) as [s' Hpre];
    [reflexivity | intros; reflexivity |].
  exists s'.
  destruct (in_live_names _ _ Hin) as (Hne & m & Hm & Hmf & Hmn).
  destruct (range_names_installed _ _ _ m Hpre Hm Hmf) as [vw Hvw];
    [congruence|].
  split; [|split; [reflexivity|split; [exact Hpre|]]].
  - unfold handleGetNodesResp, handleGetNodesResp_func.
    rewrite Hdec, Hok, Hmu. simpl. fold (cleared s).
    rewrite Hres, range_app, Hpre, range_cons, Hf, <- Hmn, Hvw.
    reflexivity.
  - repeat split.
    + intros name node Hl.
      destruct (range_names_origin _ _ _ _ _ Hpre Hl)
        as [Hs | (_ & k & vk & Hk)]; [discriminate|].
      exists k, vk. exact Hk.
    + intros id node Hl.
      destruct (range_ids_origin _ _ _ _ _ Hpre Hl)
        as [Hs | (k & vk & Hk)]; [discriminate|].
      exists k, vk. exact Hk.
    + intros k Hk Hkf. exact (range_ids_present _ _ _ _ Hpre Hk Hkf).
    + intros k Hk Hkf Hkn.
      exact (range_names_installed _ _ _ _ Hpre Hk Hkf Hkn).
Qed.

Lemma bootstrap_duplicate_name_witness :
  exists s',
    handleGetNodesResp (H := Fixture.json) Fixture.boot_twins true
      Fixture.kitchen =
      Some (s', (Some (ErrDuplicateNodeName "hall"),
                 Some (Some (ErrDuplicateNodeName "hall")))) /\
    nodesByName s' !! "kitchen-light" = None /\
    is_Some (nodesByName s' !! "hall").
Proof.
  destruct (bootstrap_duplicate_name (H := Fixture.json) Fixture.kitchen
              Fixture.boot_twins true
              {| gn_Success := true; gn_Message := EmptyString;
                 Result := [Fixture.device 5 "hall" false EmptyString;
                            Fixture.device 6 "hall" false EmptyString] |}
              [Fixture.device 5 "hall" false EmptyString] []
              (Fixture.device 6 "hall" false EmptyString))
    as (s' & Hret & _ & _ & Hnames & _ & _ & Hinst).
  - reflexivity.
  - vm_compute. reflexivity.
  - reflexivity.
  - reflexivity.
  - reflexivity.
  - apply (bool_decide_unpack _). vm_compute. exact I.
  - vm_compute. left. reflexivity.
  - exists s'. split; [exact Hret|]. split.
    + destruct (nodesByName s' !! "kitchen-light") as [node|] eqn:Hk;
        [|reflexivity].
      destruct (Hnames _ _ Hk) as (m & vw & [<- | []] & _ & Hname & _).
      discriminate Hname.
    + destruct (Hinst (Fixture.device 5 "hall" false EmptyString))
        as [vw Hvw]; [now left | reflexivity | discriminate |].
      simpl in Hvw. rewrite Hvw. eauto.
Defined.

(** C4.  When [handleGetNodesResp] returns nil, the directory it leaves is
    made of the live (not failed) entries of the response and of nothing
    else.  By id: every node indexed is built from a live entry of that id,
    every live entry has its id indexed, and the node indexed is built from
    the last live entry of the id.  By name: every node indexed is built
    from a live entry of that, non-empty, name, and every live entry with a
    name is indexed under it.  Whatever the directory held before, an id or
    a name that no live entry of the response carries is no longer
    indexed. *)
Theorem bootstrap_installs_live_devices `{EncodingJSON}
    (s s' : State) (payload : bytes) (receiver : bool)
    (sent : option error) :
  handleGetNodesResp payload receiver s = Some (s', (None, sent)) ->
  exists resp,
    Unmarshal_GetNodesResp payload zero_GetNodesResp = (None, resp) /\
    (forall id node, nodesByID s' !! id = Some node ->
       exists n vw, In n (Result resp) /\ Failed n = false /\
                    Node_ID n = id /\ node = newNode n vw) /\
    (forall n, In n (Result resp) -> Failed n = false ->
       is_Some (nodesByID s' !! Node_ID n)) /\
    (forall pre n post, Result resp = (pre ++ n :: post)%list ->
       Failed n = false ->
       (forall m, In m post -> Failed m = false ->
                  Node_ID m <> Node_ID n) ->
       exists vw, nodesByID s' !! Node_ID n = Some (newNode n vw)) /\
    (forall name node, nodesByName s' !! name = Some node ->
       name <> EmptyString /\
       exists n vw, In n (Result resp) /\ Failed n = false /\
                    Name n = name /\ node = newNode n vw) /\
    (forall n, In n (Result resp) -> Failed n = false ->
       Name n <> EmptyString ->
       exists vw, nodesByName s' !! Name n = Some (newNode n vw)) /\
    (forall id,
       (forall n, In n (Result resp) -> Failed n = false ->
                  Node_ID n <> id) ->
       nodesByID s' !! id = None) /\
    (forall name,
       (forall n, In n (Result resp) -> Failed n = false ->
                  Name n <> name) ->
       nodesByName s' !! name = None).
Proof.
  unfold handleGetNodesResp, handleGetNodesResp_func.
  destruct (Unmarshal_GetNodesResp payload zero_GetNodesResp)
    as [[err|] resp]; [intros [=]|].
  destruct (gn_Success resp); simpl; [|intros [=]].
  destruct (mu s); [intros [=]|]. fold (cleared s).
  destruct (handleGetNodesResp_range (Result resp) (cleared s))
    as [s1 err] eqn:Hr.
  intros [= -> -> _]. exists resp. split; [reflexivity|].
  split; [|split; [|split; [|split; [|split; [|split]]]]].
  - intros id node Hl.
    destruct (range_ids_origin _ _ _ _ _ Hr Hl) as [Hs | Hn];
      [discriminate|exact Hn].
  - intros n Hin Hf. exact (range_ids_present _ _ _ _ Hr Hin Hf).
  - intros pre n post Hres Hf Hlast. rewrite Hres in Hr.
    exact (range_ids_installed _ _ _ _ _ Hr Hf Hlast).
  - intros name node Hl.
    destruct (range_names_origin _ _ _ _ _ Hr Hl) as [Hs | Hn];
      [discriminate|exact Hn].
  - intros n Hin Hf Hne.
    exact (range_names_installed _ _ _ _ Hr Hin Hf Hne).
  - intros id Hno. rewrite (range_ids_frame _ _ _ _ Hr Hno). reflexivity.
  - intros name Hno.
    destruct (nodesByName s' !! name) as [node|] eqn:Hl; [|reflexivity].
    destruct (range_names_origin _ _ _ _ _ Hr Hl)
      as [Hs | (_ & n & vw & Hin & Hf & Hn & _)]; [discriminate|].
    destruct (Hno n Hin Hf Hn).
Qed.

Lemma bootstrap_installs_live_devices_witness :
  nodesByID Fixture.den !! 4 = None /\
  nodesByName Fixture.den !! "kitchen-light" = None /\
  is_Some (nodesByID Fixture.den !! 9).
Proof.
  destruct (bootstrap_installs_live_devices (H := Fixture.json)
              Fixture.kitchen Fixture.den Fixture.boot_den false None)
    as (resp & Hdec & _ & Hpresent & _ & _ & _ & Hid & Hname).
  - vm_compute. reflexivity.
  - vm_compute in Hdec. injection Hdec as <-. split; [|split].
    + apply Hid. intros n [<- | [<- | []]]; simpl; discriminate.
    + apply Hname. intros n [<- | [<- | []]]; simpl; discriminate.
    + apply (Hpresent (Fixture.device 9 "den" false EmptyString));
        [right; left|]; reflexivity.
Defined.

(** ** Pending writes *)

(** C3, as stated, fails.  Call 1 and call 2 write to the same property;
    call 2 registers its channel (3) over that of call 1 (2).  When the
    deadline of call 1 fires, the key holds the channel of call 2, which is
    about to publish; the deferred function of call 1 then deletes the
    key, although it held the channel of the newer call. *)
Lemma cleanup_removes_newer_slot :
  match exec (H := Fixture.json) Fixture.overlapping_calls
          (Fixture.start Fixture.kitchen) with
  | Some (sys, _) =>
      setAttr (state sys) !! Fixture.vid_kitchen = Some 3%positive /\
      threads sys !! 1%nat =
        Some (thread_SetAttr
                (SetAttr_deferred Fixture.vid_kitchen
                   (Some Fixture.deadline))) /\
      threads sys !! 2%nat =
        Some (thread_SetAttr
                (SetAttr_publish Fixture.vid_kitchen 3%positive
                   (Fixture.dq (Fixture.write_text 20)))) /\
      match step (H := Fixture.json) (run 1 case_recv) sys with
      | Some (sys', _) =>
          threads sys' !! 1%nat =
            Some (thread_SetAttr (SetAttr_return (Some Fixture.deadline)))
          /\ threads sys' !! 2%nat = threads sys !! 2%nat
          /\ setAttr (state sys') !! Fixture.vid_kitchen = None
      | None => False
      end
  | None => False
  end.
Proof. vm_compute. repeat split. Qed.

(** C3, amended.  The deferred function of [SetAttr] deletes the entry of
    the call's key whatever channel it holds, and returns.  A call that has
    registered keeps its key and leaves the table alone until it runs the
    deferred function, which is its only way to return.  A call that
    returns from its first transition, before registering, leaves the table
    as it was. *)
Theorem SetAttr_cleanup_unconditional `{EncodingJSON}
    (o : select_case) (s s' : State) (pc pc' : SetAttr_pc) :
  SetAttr_step o pc s = Some (s', pc') ->
  (forall vid ret, pc = SetAttr_deferred vid ret ->
     pc' = SetAttr_return ret /\
     setAttr s' = delete vid (setAttr s) /\
     setAttr s' !! vid = None) /\
  (forall vid, SetAttr_key pc = Some vid ->
     (exists ret, pc = SetAttr_deferred vid ret) \/
     (SetAttr_key pc' = Some vid /\ setAttr s' = setAttr s)) /\
  (forall ret, SetAttr_key pc = None -> pc' = SetAttr_return ret ->
     setAttr s' = setAttr s).
Proof.
  intros Hstep. split; [|split].
  - intros vid ret ->. simpl in Hstep.
    destruct (mu s); [discriminate|]. injection Hstep as <- <-.
    split; [reflexivity|]. split; [reflexivity|]. apply lookup_delete_eq.
  - intros vid Hkey. destruct pc; simpl in Hkey; try discriminate;
      injection Hkey as ->; simpl in Hstep.
    + right. destruct (p s _ payload); injection Hstep as <- <-;
        split; reflexivity.
    + right. destruct o.
      * injection Hstep as <- <-. split; reflexivity.
      * destruct (waitBuf s wait); [discriminate|].
        injection Hstep as <- <-. split; reflexivity.
    + left. eauto.
  - intros ret Hkey ->. destruct pc; simpl in Hkey; try discriminate.
    simpl in Hstep. destruct (mu s); [discriminate|].
    destruct (nodesByName s !! nodeName) as [n|];
      [|injection Hstep as <- _; reflexivity].
    destruct (valuesByProperty n !! property) as [v|];
      [|injection Hstep as <- _; reflexivity].
    destruct (Marshal_APIArgs _) as [payload [err|]];
      [injection Hstep as <- _; reflexivity|discriminate].
Qed.

Lemma SetAttr_cleanup_unconditional_witness :
  let s := Fixture.after Fixture.overlapping_calls Fixture.kitchen in
  let s' := set_setAttr (delete Fixture.vid_kitchen (setAttr s)) s in
  setAttr s !! Fixture.vid_kitchen = Some 3%positive /\
  SetAttr_step (H := Fixture.json) case_recv
    (SetAttr_deferred Fixture.vid_kitchen (Some Fixture.deadline)) s =
    Some (s', SetAttr_return (Some Fixture.deadline)) /\
  setAttr s' !! Fixture.vid_kitchen = None.
Proof.
  intros s s'.
  assert (Hstep :
    SetAttr_step (H := Fixture.json) case_recv
      (SetAttr_deferred Fixture.vid_kitchen (Some Fixture.deadline)) s =
    Some (s', SetAttr_return (Some Fixture.deadline)))
    by (vm_compute; reflexivity).
  destruct (SetAttr_cleanup_unconditional (H := Fixture.json) _ _ _ _ _
              Hstep) as (Hdel & _ & _).
  destruct (Hdel _ _ eq_refl) as (_ & _ & Hgone).
  split; [vm_compute; reflexivity|]. split; [exact Hstep|exact Hgone].
Defined.

(** C2, as stated, fails.  Call 1 writes 10 to a property and returns at
    its deadline, its cleanup done.  Call 2 then writes 20 to the same
    property.  The acknowledgement of the first request, which echoes the
    value 10, now arrives: it is not dropped but sent on the channel of
    call 2, and call 2 returns nil on the strength of it. *)
Lemma late_ack_reaches_newer_call :
  wv_Value (snd (WriteValueResp_UnmarshalJSON (H := Fixture.json)
                   Fixture.ack_ok_10 zero_WriteValueResp)) = "10" /\
  match exec (H := Fixture.json) Fixture.late_ack
          (Fixture.start Fixture.kitchen) with
  | Some (sys, _) =>
      published (state sys) =
        [(Fixture.write_topic, Fixture.dq (Fixture.write_text 10));
         (Fixture.write_topic, Fixture.dq (Fixture.write_text 20))] /\
      threads sys !! 1%nat =
        Some (thread_SetAttr (SetAttr_return (Some Fixture.deadline))) /\
      threads sys !! 2%nat = Some (thread_SetAttr (SetAttr_return None))
  | None => False
  end.
Proof. vm_compute. repeat split. Qed.

(** C2, amended.  An acknowledgement that decodes is routed by the table
    alone.  When no channel is registered under its key it is dropped: the
    handler returns nil and nothing changes.  When a channel is registered
    under its key, whichever call put it there, the outcome is sent on that
    channel and on no other, so that a call whose entry was replaced or
    deleted does not receive it while a call that registered later does;
    the send waits as long as that channel still holds an earlier
    outcome. *)
Theorem ack_follows_the_table `{EncodingJSON}
    (s : State) (payload : bytes) (resp : WriteValueResp) :
  mu s = false ->
  WriteValueResp_UnmarshalJSON payload zero_WriteValueResp = (None, resp) ->
  let ret :=
    if wv_Success resp then None
    else Some (ErrWriteNotSuccessful (wv_Message resp)) in
  (setAttr s !! wv_ValueID resp = None ->
     handleWriteValueResp payload s = Some (s, None)) /\
  (forall wait, setAttr s !! wv_ValueID resp = Some wait ->
     waitBuf s wait = [] ->
     exists s',
       handleWriteValueResp payload s = Some (s', ret) /\
       waitBuf s' wait = [ret] /\
       (forall c, c <> wait -> waitBuf s' c = waitBuf s c) /\
       setAttr s' = setAttr s) /\
  (forall wait, setAttr s !! wv_ValueID resp = Some wait ->
     waitBuf s wait <> [] ->
     handleWriteValueResp payload s = None).
Proof.
  intros Hmu Hdec ret. unfold handleWriteValueResp.
  rewrite Hdec, Hmu. split; [|split].
  - intros ->. reflexivity.
  - intros wait -> Hbuf. unfold send_wait. rewrite Hbuf. subst ret.
    destruct (wv_Success resp); simpl;
      (eexists; split; [reflexivity|]; split;
       [unfold waitBuf; simpl; rewrite lookup_insert_eq; reflexivity|];
       split; [|reflexivity];
       intros c Hc; unfold waitBuf; simpl;
       rewrite lookup_insert_ne by congruence; reflexivity).
  - intros wait -> Hbuf. unfold send_wait.
    destruct (waitBuf s wait); [congruence|].
    destruct (wv_Success resp); reflexivity.
Qed.

Lemma ack_follows_the_table_witness :
  handleWriteValueResp (H := Fixture.json) Fixture.ack_ok_10
    Fixture.kitchen = Some (Fixture.kitchen, None) /\
  exists s',
    handleWriteValueResp (H := Fixture.json) Fixture.ack_ok_10
      Fixture.inflight = Some (s', None) /\
    waitBuf s' 2%positive = [None].
Proof.
  split.
  - apply (ack_follows_the_table (H := Fixture.json) Fixture.kitchen
             Fixture.ack_ok_10
             {| wv_Success := true; wv_Message := "Success zwave api call";
                wv_ValueID := Fixture.vid_kitchen; wv_Value := "10" |});
      vm_compute; reflexivity.
  - destruct (ack_follows_the_table (H := Fixture.json) Fixture.inflight
                Fixture.ack_ok_10
                {| wv_Success := true;
                   wv_Message := "Success zwave api call";
                   wv_ValueID := Fixture.vid_kitchen; wv_Value := "10" |})
      as (_ & Hsend & _); [reflexivity | vm_compute; reflexivity |].
    destruct (Hsend 2%positive) as (s' & Hrun & Hbuf & _);
      [vm_compute; reflexivity | vm_compute; reflexivity |].
    exists s'. split; [exact Hrun|exact Hbuf].
Defined.

(** ** Watchers *)

Section Watchers.
Context `{EncodingJSON}.

(** What each operation leaves alone. *)

Lemma SetAttr_step_frame (o : select_case) (pc pc' : SetAttr_pc)
    (s s' : State) :
  SetAttr_step o pc s = Some (s', pc') ->
  nodesByName s' = nodesByName s /\ nodesByID s' = nodesByID s /\
  watcherMaps s' = watcherMaps s /\ watcherSets s' = watcherSets s /\
  (next s <= next s')%positive.
Proof.
  intros Hstep. destruct pc; simpl in Hstep; repeat case_match;
    simplify_eq; simpl; repeat split; lia.
Qed.

Lemma GetNodes_step_frame (o : select_case) (pc pc' : GetNodes_pc)
    (s s' : State) :
  GetNodes_step o pc s = Some (s', pc') ->
  nodesByName s' = nodesByName s /\ nodesByID s' = nodesByID s /\
  watcherMaps s' = watcherMaps s /\ watcherSets s' = watcherSets s /\
  (next s <= next s')%positive.
Proof.
  intros Hstep. destruct pc; simpl in Hstep; repeat case_match;
    simplify_eq; simpl; repeat split; lia.
Qed.

Lemma handleWriteValueResp_frame (payload : bytes) (s s' : State)
    (err : error) :
  handleWriteValueResp payload s = Some (s', err) ->
  nodesByName s' = nodesByName s /\ nodesByID s' = nodesByID s /\
  watcherMaps s' = watcherMaps s /\ watcherSets s' = watcherSets s /\
  (next s <= next s')%positive.
Proof.
  unfold handleWriteValueResp, send_wait. intros Hrun.
  repeat case_match; simplify_eq; simpl; repeat split; lia.
Qed.

Lemma cancel_frame (c : cancelFunc) (s s' : State) :
  cancel c s = Some s' ->
  nodesByName s' = nodesByName s /\ nodesByID s' = nodesByID s /\
  watcherMaps s' = watcherMaps s /\ next s' = next s.
Proof.
  unfold cancel. intros Hrun. case_match; simplify_eq. repeat split.
Qed.

Lemma watcherSet_insert (s : State) (w w' : ref) (ws : gset chan_any) :
  watcherSet (set_watcherSets (<[w := ws]> (watcherSets s)) s) w' =
    if decide (w = w') then ws else watcherSet s w'.
Proof.
  unfold watcherSet. simpl. rewrite lookup_insert.
  destruct (decide (w = w')); reflexivity.
Qed.

(** [cancel] removes one channel from one set. *)
Lemma cancel_sets (c : cancelFunc) (s s' : State) :
  cancel c s = Some s' ->
  forall w x,
    x ∈ watcherSet s' w <->
    x ∈ watcherSet s w /\ ~ (w = cancel_w c /\ x = cancel_v c).
Proof.
  unfold cancel. intros Hrun w x. case_match; simplify_eq.
  rewrite watcherSet_insert. destruct (decide (cancel_w c = w)) as [<-|Hw].
  - rewrite elem_of_difference, elem_of_singleton. tauto.
  - split; [intros Hx; split; [exact Hx|intros [-> _]; congruence]|tauto].
Qed.



(** A send to a watcher goes to a member of a set that the directory
    refers to. *)
Lemma handleNodeValueUpdated_sends (payload : bytes)
    (ready : chan_any -> bool) (s : State) (err : error)
    (sends : list (chan_any * any)) :
  handleNodeValueUpdated payload ready s = Some (err, sends) ->
  forall c, In c (List.map fst sends) ->
    exists w, referenced w s /\ c ∈ watcherSet s w.
Proof.
  unfold handleNodeValueUpdated. intros Hrun c Hc.
  repeat case_match; simplify_eq; try (destruct Hc).
  rewrite List.map_map in Hc. simpl in Hc. rewrite List.map_id in Hc.
  apply filter_In in Hc as [Hc _].
  apply list_elem_of_In, elem_of_elements in Hc.
  eexists. split; [|exact Hc].
  eexists _, _. split; [right; eexists; eassumption|eassumption].
Qed.


Lemma referenced_frame (w : ref) (s s' : State) :
  nodesByName s' = nodesByName s -> nodesByID s' = nodesByID s ->
  watcherMaps s' = watcherMaps s ->
  referenced w s' -> referenced w s.
Proof.
  unfold referenced, indexed, watcherMap. intros -> -> ->. tauto.
Qed.


(** [install] gives the new node an empty watchers map, and refers to no
    watcher set that was not referred to. *)
Lemma install_referenced (n : api.Node) (s : State) (w : ref) :
  referenced w (install n s) -> referenced w s.
Proof.
  intros (m & property & Hidx & Hw).
  assert (Hmap : forall r,
    watcherMap (install n s) r =
      if decide (next s = r) then ∅ else watcherMap s r).
  { intros r. unfold install, watcherMap.
    destruct (negb (Name n =? EmptyString)); simpl;
      rewrite lookup_insert; destruct (decide (next s = r)); reflexivity. }
  rewrite Hmap in Hw.
  destruct (decide (next s = valueWatchers m)) as [Heq|Hne];
    [rewrite lookup_empty in Hw; discriminate|].
  exists m, property. split; [|exact Hw].
  destruct Hidx as [[name Hn] | [id Hi]].
  - left. exists name. rewrite nodesByName_install in Hn.
    destruct (negb (Name n =? EmptyString)); [|exact Hn].
    rewrite lookup_insert in Hn. case_decide; [|exact Hn].
    injection Hn as <-. simpl in Hne. congruence.
  - right. exists id. rewrite nodesByID_install, lookup_insert in Hi.
    case_decide; [|exact Hi].
    injection Hi as <-. simpl in Hne. congruence.
Qed.

Lemma install_frame (n : api.Node) (s : State) :
  watcherSets (install n s) = watcherSets s /\
  next (install n s) = Pos.succ (next s).
Proof.
  unfold install. destruct (negb (Name n =? EmptyString)); split;
    reflexivity.
Qed.

Lemma range_referenced (result : list api.Node) :
  forall s s' err w,
    handleGetNodesResp_range result s = (s', err) ->
    referenced w s' -> referenced w s.
Proof.
  induction result as [|n rest IH]; intros s s' err w Hr Hw.
  - injection Hr as <- _. exact Hw.
  - rewrite range_cons in Hr. destruct (Failed n); [eauto|].
    destruct (nodesByName s !! Name n).
    + injection Hr as <- _. exact Hw.
    + apply install_referenced with (n := n). eauto.
Qed.

Lemma range_frame (result : list api.Node) :
  forall s s' err,
    handleGetNodesResp_range result s = (s', err) ->
    watcherSets s' = watcherSets s /\ (next s <= next s')%positive.
Proof.
  induction result as [|n rest IH]; intros s s' err Hr.
  - injection Hr as <- _. split; [reflexivity|lia].
  - rewrite range_cons in Hr. destruct (Failed n); [eauto|].
    destruct (nodesByName s !! Name n).
    + injection Hr as <- _. split; [reflexivity|lia].
    + destruct (IH _ _ _ Hr) as [Hs Hn].
      destruct (install_frame n s) as [Hs' Hn'].
      split; [congruence|lia].
Qed.

Lemma handleGetNodesResp_frame (payload : bytes) (receiver : bool)
    (s s' : State) (r : error * option error) :
  handleGetNodesResp payload receiver s = Some (s', r) ->
  watcherSets s' = watcherSets s /\ (next s <= next s')%positive /\
  (forall w, referenced w s' -> referenced w s).
Proof.
  unfold handleGetNodesResp, handleGetNodesResp_func. intros Hrun.
  repeat case_match; simplify_eq;
    try (split; [reflexivity|split; [lia|tauto]]).
  all: match goal with
  | Hr : handleGetNodesResp_range _ _ = _ |- _ =>
      destruct (range_frame _ _ _ _ Hr) as [Hs Hn];
      split; [exact Hs|split; [exact Hn|]];
      intros w Hw; apply (range_referenced _ _ _ _ _ Hr) in Hw;
      destruct Hw as (m & property & [[name Hm] | [id Hm]] & _);
      simpl in Hm; rewrite lookup_empty in Hm; discriminate
  end.
Qed.

(** After a response that was processed, no watcher set is referred to. *)
Lemma handleGetNodesResp_unreferenced (payload : bytes) (receiver : bool)
    (s s' : State) (sent : option error) (w : ref) :
  handleGetNodesResp payload receiver s = Some (s', (None, sent)) ->
  ~ referenced w s'.
Proof.
  unfold handleGetNodesResp, handleGetNodesResp_func. intros Hrun Hw.
  repeat case_match; simplify_eq.
  all: match goal with
  | Hr : handleGetNodesResp_range _ _ = _ |- _ =>
      apply (range_referenced _ _ _ _ _ Hr) in Hw
  end.
  all: destruct Hw as (m & property & [[name Hm] | [id Hm]] & _);
    simpl in Hm; rewrite lookup_empty in Hm; discriminate.
Qed.

(** [WatchValue] refers to one more watcher set at most, a fresh one. *)
Lemma WatchValue_referenced (nodeName property : string) (v : chan_any)
    (s s' : State) (r : option cancelFunc * error) :
  WatchValue nodeName property v s = Some (s', r) ->
  (next s <= next s')%positive /\
  forall w, referenced w s' ->
    referenced w s \/ (w = next s /\ (next s < next s')%positive).
Proof.
  unfold WatchValue. intros Hrun.
  repeat case_match; simplify_eq; simpl;
    try (split; [lia|intros w Hw; left; exact Hw]).
  split; [lia|]. intros w (m & prop & Hidx & Hw).
  unfold watcherMap in Hw. simpl in Hw. rewrite lookup_insert in Hw.
  case_decide as Hvw.
  - simpl in Hw. rewrite lookup_insert in Hw.
    case_decide; [right; split; [congruence|lia]|]. left.
    exists m, prop. split; [exact Hidx|]. rewrite <- Hvw. exact Hw.
  - left. exists m, prop. split; [exact Hidx|exact Hw].
Qed.

(** The closure that [WatchValue] returns captures the caller's channel and
    a watcher set that the directory refers to and that now holds the
    channel. *)
Lemma WatchValue_closure (nodeName property : string) (v : chan_any)
    (s s' : State) (c : cancelFunc) (err : error) :
  WatchValue nodeName property v s = Some (s', (Some c, err)) ->
  cancel_v c = v /\ v ∈ watcherSet s' (cancel_w c) /\
  referenced (cancel_w c) s'.
Proof.
  unfold WatchValue. intros Hrun.
  repeat case_match; simplify_eq.
  - split; [reflexivity|]. split.
    + cbn [cancel_w]. rewrite watcherSet_insert, decide_True by reflexivity.
      set_solver.
    + eexists _, _. split; [left; eexists; eassumption|eassumption].
  - split; [reflexivity|]. split.
    + cbn [cancel_w]. rewrite watcherSet_insert, decide_True by reflexivity.
      set_solver.
    + eexists _, property. split; [left; eexists; eassumption|].
      unfold watcherMap. simpl. rewrite lookup_insert_eq. simpl.
      apply lookup_insert_eq.
Qed.

(** Invariants of the transition system. *)







(** Allocation is an invariant: it holds of a new broker and every
    transition keeps it, so the watcher set of a closure returned by
    [WatchValue] is below [next] from then on. *)
Lemma NewBroker_allocated (publisher : Publisher) :
  allocated (NewBroker publisher).
Proof.
  intros w (n & property & [[name Hn] | [id Hn]] & _);
    simpl in Hn; rewrite lookup_empty in Hn; discriminate.
Qed.

Lemma step_allocated (e : event) (sys sys' : System) (o : observation) :
  allocated (state sys) -> step e sys = Some (sys', o) ->
  allocated (state sys') /\
  (next (state sys) <= next (state sys'))%positive.
Proof.
  intros Hwf Hstep. destruct e; simpl in Hstep.
  - repeat case_match; simplify_eq. split; [exact Hwf|simpl; lia].
  - repeat case_match; simplify_eq. split; [exact Hwf|simpl; lia].
  - repeat case_match; simplify_eq; simpl.
    + match goal with
      | Hs : SetAttr_step _ _ _ = _ |- _ =>
          destruct (SetAttr_step_frame _ _ _ _ _ Hs)
            as (Hn & Hi & Hm & _ & Hnext)
      end.
      split; [|exact Hnext]. intros w Hr.
      pose proof (Hwf w (referenced_frame _ _ _ Hn Hi Hm Hr)). lia.
    + match goal with
      | Hs : GetNodes_step _ _ _ = _ |- _ =>
          destruct (GetNodes_step_frame _ _ _ _ _ Hs)
            as (Hn & Hi & Hm & _ & Hnext)
      end.
      split; [|exact Hnext]. intros w Hr.
      pose proof (Hwf w (referenced_frame _ _ _ Hn Hi Hm Hr)). lia.
  - repeat case_match; simplify_eq. simpl.
    match goal with
    | Hs : WatchValue _ _ _ _ = _ |- _ =>
        destruct (WatchValue_referenced _ _ _ _ _ _ Hs) as [Hnext Href]
    end.
    split; [|exact Hnext]. intros w Hr.
    destruct (Href _ Hr) as [Hold | [-> Hlt]]; [|exact Hlt].
    pose proof (Hwf w Hold). lia.
  - repeat case_match; simplify_eq. simpl.
    match goal with
    | Hs : cancel _ _ = _ |- _ =>
        destruct (cancel_frame _ _ _ Hs) as (Hn & Hi & Hm & Hnext)
    end.
    split; [|lia]. intros w Hr.
    pose proof (Hwf w (referenced_frame _ _ _ Hn Hi Hm Hr)). lia.
  - repeat case_match; simplify_eq; simpl.
    all: match goal with
      | Hs : handleGetNodesResp _ _ _ = _ |- _ =>
          destruct (handleGetNodesResp_frame _ _ _ _ _ Hs)
            as (_ & Hnext & Href)
      end;
      (split; [|exact Hnext]); intros w Hr;
      pose proof (Hwf w (Href _ Hr)); lia.
  - repeat case_match; simplify_eq. simpl.
    match goal with
    | Hs : handleWriteValueResp _ _ = _ |- _ =>
        destruct (handleWriteValueResp_frame _ _ _ _ Hs)
          as (Hn & Hi & Hm & _ & Hnext)
    end.
    split; [|exact Hnext]. intros w Hr.
    pose proof (Hwf w (referenced_frame _ _ _ Hn Hi Hm Hr)). lia.
  - repeat case_match; simplify_eq. split; [exact Hwf|lia].
Qed.

Lemma exec_allocated (tr : list event) :
  forall sys sys' os,
    allocated (state sys) -> exec tr sys = Some (sys', os) ->
    allocated (state sys') /\
    (next (state sys) <= next (state sys'))%positive.
Proof.
  induction tr as [|e tr IH]; intros sys sys' os Hwf Hexec.
  - injection Hexec as <- <-. split; [exact Hwf|lia].
  - simpl in Hexec. destruct (step e sys) as [[sys1 o]|] eqn:Hstep;
      [|discriminate].
    destruct (exec tr sys1) as [[sys2 os']|] eqn:Hrest; [|discriminate].
    injection Hexec as <- <-.
    destruct (step_allocated _ _ _ _ Hwf Hstep) as [Hwf1 Hn1].
    destruct (IH _ _ _ Hwf1 Hrest) as [Hwf2 Hn2].
    split; [exact Hwf2|lia].
Qed.

End Watchers.


(** Before the cancellation the channel is served. *)
Example watcher_is_served :
  handleNodeValueUpdated (H := Fixture.json) Fixture.update_kitchen
    (fun _ => true) Fixture.watching =
    Some (None, [(7%positive, any_int 50)]).
Proof. vm_compute. reflexivity. Qed.


(** After the cancellation the same notification finds the watcher set
    empty, before and after a later bootstrap: the run takes place and
    serves nobody. *)
Example cancelled_watcher_is_not_served :
  match exec (H := Fixture.json)
          [call_cancel Fixture.cancel_7;
           recv_NodeValueUpdated Fixture.update_kitchen (fun _ => true);
           recv_GetNodesResp Fixture.boot_den None;
           recv_NodeValueUpdated Fixture.update_kitchen (fun _ => true)]
          (Fixture.start Fixture.watching) with
  | Some (_, os) =>
      os = [obs_none; obs_NodeValueUpdated None []; obs_handler None;
            obs_NodeValueUpdated None []]
  | None => False
  end.
Proof. vm_compute. reflexivity. Qed.

(** * Further properties *)

(** ** Watching *)

(** X1.  [WatchValue] for a device name that the directory does not hold,
    or for a property that the device found does not have, returns no
    closure and an error of the NotFound class, and leaves the state as it
    was. *)
Theorem WatchValue_unknown (s : State) (nodeName property : string)
    (v : chan_any) :
  mu s = false ->
  nodesByName s !! nodeName = None \/
  (exists n, nodesByName s !! nodeName = Some n /\
             valuesByProperty n !! property = None) ->
  exists err,
    WatchValue nodeName property v s = Some (s, (None, Some err)) /\
    kind err = Some NotFound.
Proof.
  intros Hmu [Hn | (n & Hn & Hp)]; unfold WatchValue; rewrite Hmu, Hn.
  - eexists. split; reflexivity.
  - rewrite Hp. eexists. split; reflexivity.
Qed.

Lemma WatchValue_unknown_witness :
  exists err,
    WatchValue "kitchen-light" "targetValue" 7%positive Fixture.kitchen =
      Some (Fixture.kitchen, (None, Some err)) /\
    kind err = Some NotFound.
Proof.
  apply WatchValue_unknown.
  - reflexivity.
  - right. eexists. split; vm_compute; reflexivity.
Defined.

(** What a successful [WatchValue] leaves behind. *)
Lemma WatchValue_registers (nodeName property : string) (v : chan_any)
    (s s1 : State) (c : cancelFunc) (err : error) :
  WatchValue nodeName property v s = Some (s1, (Some c, err)) ->
  err = None /\ cancel_v c = v /\ mu s1 = false /\
  nodesByName s1 = nodesByName s /\ nodesByID s1 = nodesByID s /\
  setAttr s1 = setAttr s /\ published s1 = published s /\
  exists n,
    nodesByName s !! nodeName = Some n /\
    is_Some (valuesByProperty n !! property) /\
    watcherMap s1 (valueWatchers n) !! property = Some (cancel_w c) /\
    v ∈ watcherSet s1 (cancel_w c).
Proof.
  unfold WatchValue. intros Hrun.
  repeat case_match; simplify_eq.
  - repeat (split; [first [reflexivity | assumption]|]).
    eexists. split; [reflexivity|]. split; [eauto|]. split; [assumption|].
    cbn [cancel_w]. rewrite watcherSet_insert, decide_True by reflexivity.
    set_solver.
  - repeat (split; [first [reflexivity | assumption]|]).
    eexists. split; [reflexivity|]. split; [eauto|]. split.
    + unfold watcherMap. simpl. rewrite lookup_insert_eq. simpl.
      apply lookup_insert_eq.
    + cbn [cancel_w]. rewrite watcherSet_insert, decide_True by reflexivity.
      set_solver.
Qed.

(** X2.  Registering the same channel for the same property a second time
    changes nothing: the state is the one the first call left and the
    closure returned is the same.  The two registrations are therefore
    one, and a single call of the closure takes the channel out of the
    set. *)
Theorem WatchValue_twice (nodeName property : string) (v : chan_any)
    (s s1 : State) (c : cancelFunc) (err : error) :
  WatchValue nodeName property v s = Some (s1, (Some c, err)) ->
  WatchValue nodeName property v s1 = Some (s1, (Some c, None)) /\
  exists s2, cancel c s1 = Some s2 /\ v ∉ watcherSet s2 (cancel_w c).
Proof.
  intros Hrun.
  destruct (WatchValue_registers _ _ _ _ _ _ _ Hrun)
    as (_ & Hv & Hmu & Hn & _ & _ & _ & n & Hnode & [val Hval] & Hmap & Hin).
  split.
  - unfold WatchValue. rewrite Hmu, Hn, Hnode, Hval, Hmap.
    destruct c as [w v']. simpl in Hv, Hin |- *. subst v'.
    assert (Hset : watcherSets s1 !! w = Some (watcherSet s1 w)).
    { unfold watcherSet in *. destruct (watcherSets s1 !! w); [reflexivity|].
      simpl in Hin. set_solver. }
    replace ({[v]} ∪ watcherSet s1 w) with (watcherSet s1 w) by set_solver.
    rewrite (insert_id _ _ _ Hset). destruct s1; reflexivity.
  - destruct (cancel c s1) as [s2|] eqn:Hc;
      [|unfold cancel in Hc; rewrite Hmu in Hc; discriminate].
    exists s2. split; [reflexivity|]. rewrite (cancel_sets _ _ _ Hc).
    intros [_ Hne]. apply Hne. split; [reflexivity|]. symmetry. exact Hv.
Qed.

Lemma WatchValue_twice_witness :
  WatchValue "kitchen-light" "currentValue" 7%positive Fixture.watching =
    Some (Fixture.watching, (Some Fixture.cancel_7, None)) /\
  exists s2, cancel Fixture.cancel_7 Fixture.watching = Some s2 /\
             7%positive ∉ watcherSet s2 2%positive.
Proof.
  apply (WatchValue_twice "kitchen-light" "currentValue" 7%positive
           Fixture.kitchen Fixture.watching Fixture.cancel_7 None).
  vm_compute. reflexivity.
Defined.

(** ** Dispatch of notifications *)

(** The sends of a notification that is dispatched. *)
Lemma dispatch_to_ready `{EncodingJSON}
    (s : State) (payload : bytes) (ready : chan_any -> bool)
    (update : Value) (val : any) (n : Node) (cbs : ref) :
  mu s = false ->
  NodeValueUpdate_UnmarshalJSON payload zero_Value = (None, update) ->
  Value_Value update = (val, None) ->
  nodesByID s !! NodeID update = Some n ->
  watcherMap s (valueWatchers n) !! StringInt_String (Property update)
    = Some cbs ->
  exists sends,
    handleNodeValueUpdated payload ready s = Some (None, sends) /\
    (forall c x,
       In (c, x) sends <->
       c ∈ watcherSet s cbs /\ ready c = true /\ x = val) /\
    NoDup (List.map fst sends).
Proof.
  intros Hmu Hdec Hval Hn Hw. unfold handleNodeValueUpdated.
  rewrite Hdec, Hval, Hmu, Hn, Hw. eexists. split; [reflexivity|]. split.
  - intros c x. rewrite in_map_iff. split.
    + intros (c' & [= <- <-] & Hin). apply filter_In in Hin as [Hin Hr].
      apply list_elem_of_In, elem_of_elements in Hin. auto.
    + intros (Hin & Hr & ->). exists c. split; [reflexivity|].
      apply filter_In. split; [|exact Hr].
      apply list_elem_of_In, elem_of_elements. exact Hin.
  - rewrite List.map_map. simpl. rewrite List.map_id.
    apply NoDup_ListNoDup, List.NoDup_filter, NoDup_ListNoDup,
      NoDup_elements.
Qed.

(** X3.  A notification that decodes, for a device of the directory and a
    property that has a watcher set, is sent to the channels of that set
    that are ready and to no other channel; each of them is sent the
    decoded value, once.  A channel that is not ready is skipped: nothing
    is sent to it and the others are served all the same. *)
Theorem handleNodeValueUpdated_serves_ready `{EncodingJSON}
    (s : State) (payload : bytes) (ready : chan_any -> bool)
    (update : Value) (val : any) (n : Node) (cbs : ref) :
  mu s = false ->
  NodeValueUpdate_UnmarshalJSON payload zero_Value = (None, update) ->
  Value_Value update = (val, None) ->
  nodesByID s !! NodeID update = Some n ->
  watcherMap s (valueWatchers n) !! StringInt_String (Property update)
    = Some cbs ->
  exists sends,
    handleNodeValueUpdated payload ready s = Some (None, sends) /\
    (forall c x,
       In (c, x) sends <->
       c ∈ watcherSet s cbs /\ ready c = true /\ x = val) /\
    NoDup (List.map fst sends).
Proof.
  exact (dispatch_to_ready s payload ready update val n cbs).
Qed.

Lemma handleNodeValueUpdated_serves_ready_witness :
  exists sends,
    handleNodeValueUpdated (H := Fixture.json) Fixture.update_kitchen
      (fun c => Pos.eqb c 7) Fixture.watching = Some (None, sends) /\
    (forall c x,
       In (c, x) sends <->
       c ∈ watcherSet Fixture.watching 2%positive /\
       Pos.eqb c 7 = true /\ x = any_int 50) /\
    NoDup (List.map fst sends).
Proof.
  apply (handleNodeValueUpdated_serves_ready (H := Fixture.json)
           Fixture.watching Fixture.update_kitchen (fun c => Pos.eqb c 7)
           (Fixture.currentValue 4 "50") (any_int 50)
           (newNode (Fixture.device 4 "kitchen-light" false EmptyString)
              1%positive) 2%positive);
    vm_compute; reflexivity.
Defined.

(** X4.  Registration and dispatch compose.  Let a device be indexed under
    a name and under an id by nodes that share their watchers map, as the
    bootstrap leaves them.  After [WatchValue] succeeded for that name, a
    property and a channel [v], a notification for that id and that
    property is sent to [v] if [v] is ready, and is not sent to [v] if it
    is not. *)
Theorem watch_then_notify `{EncodingJSON}
    (s s1 : State) (nodeName property : string) (v : chan_any)
    (c : cancelFunc) (err : error) (n n' : Node)
    (payload : bytes) (ready : chan_any -> bool)
    (update : Value) (val : any) :
  WatchValue nodeName property v s = Some (s1, (Some c, err)) ->
  nodesByName s !! nodeName = Some n ->
  nodesByID s !! NodeID update = Some n' ->
  valueWatchers n' = valueWatchers n ->
  NodeValueUpdate_UnmarshalJSON payload zero_Value = (None, update) ->
  StringInt_String (Property update) = property ->
  Value_Value update = (val, None) ->
  exists sends,
    handleNodeValueUpdated payload ready s1 = Some (None, sends) /\
    (ready v = true -> In (v, val) sends) /\
    (ready v = false -> ~ In v (List.map fst sends)).
Proof.
  intros Hrun Hn Hn' Hvw Hdec Hprop Hval.
  destruct (WatchValue_registers _ _ _ _ _ _ _ Hrun)
    as (_ & _ & Hmu & _ & Hid & _ & _ & m & Hm & _ & Hmap & Hin).
  rewrite Hn in Hm. injection Hm as <-.
  destruct (dispatch_to_ready s1 payload ready update val
              n' (cancel_w c) Hmu Hdec Hval)
    as (sends & Hsends & Hiff & _).
  - rewrite Hid. exact Hn'.
  - rewrite Hvw, Hprop. exact Hmap.
  - exists sends. split; [exact Hsends|]. split.
    + intros Hr. apply Hiff. auto.
    + intros Hr Hv. apply in_map_iff in Hv as ([c' x] & Hc' & Hcx).
      simpl in Hc'. subst c'. apply Hiff in Hcx as (_ & Hr' & _).
      congruence.
Qed.

Lemma watch_then_notify_witness :
  exists sends,
    handleNodeValueUpdated (H := Fixture.json) Fixture.update_kitchen
      (fun _ => true) Fixture.watching = Some (None, sends) /\
    In (7%positive, any_int 50) sends.
Proof.
  destruct (watch_then_notify (H := Fixture.json) Fixture.kitchen
              Fixture.watching "kitchen-light" "currentValue" 7%positive
              Fixture.cancel_7 None
              (newNode (Fixture.device 4 "kitchen-light" false EmptyString)
                 1%positive)
              (newNode (Fixture.device 4 "kitchen-light" false EmptyString)
                 1%positive)
              Fixture.update_kitchen (fun _ => true)
              (Fixture.currentValue 4 "50") (any_int 50))
    as (sends & Hrun & Hserved & _);
    try (vm_compute; reflexivity).
  exists sends. split; [exact Hrun|]. apply Hserved. reflexivity.
Defined.

(** X5.  A bootstrap that succeeds forgets every watcher: each node it
    installs has a new, empty watchers map, so that afterwards no
    notification is sent to any channel until [WatchValue] is called
    again. *)
Theorem bootstrap_forgets_watchers `{EncodingJSON}
    (s s' : State) (payload : bytes) (receiver : bool)
    (sent : option error) :
  handleGetNodesResp payload receiver s = Some (s', (None, sent)) ->
  forall payload' ready err sends,
    handleNodeValueUpdated payload' ready s' = Some (err, sends) ->
    sends = [].
Proof.
  intros Hboot payload' ready err sends Hrun.
  destruct sends as [|[c x] sends]; [reflexivity|].
  destruct (handleNodeValueUpdated_sends _ _ _ _ _ Hrun c) as (w & Hw & _);
    [now left|].
  destruct (handleGetNodesResp_unreferenced _ _ _ _ _ w Hboot Hw).
Qed.

Lemma bootstrap_forgets_watchers_witness :
  handleNodeValueUpdated (H := Fixture.json) Fixture.update_kitchen
    (fun _ => true) Fixture.watching =
    Some (None, [(7%positive, any_int 50)]) /\
  forall payload' ready err sends,
    handleNodeValueUpdated (H := Fixture.json) payload' ready
      (Fixture.after [recv_GetNodesResp Fixture.boot_kitchen None]
         Fixture.watching) = Some (err, sends) ->
    sends = [].
Proof.
  split; [vm_compute; reflexivity|].
  apply (bootstrap_forgets_watchers (H := Fixture.json) Fixture.watching _
           Fixture.boot_kitchen false None).
  vm_compute. reflexivity.
Defined.

(** ** More on the bootstrap *)

(** X6.  A bootstrap response that does not decode, or that reports
    [success:false], is refused before the lock is taken and before the
    directory is emptied: the handler returns an error, hands it to a
    waiting [GetNodes], and leaves the whole state as it was, whether or
    not the mutex is held.  The error of a response that does not decode
    wraps the decoder's and is of the Malformed class; the error of a
    [success:false] response is the plain one of the code, which belongs
    to no class. *)
Theorem bootstrap_refused_keeps_state `{EncodingJSON}
    (s : State) (payload : bytes) (receiver : bool) (err : Err) :
  (exists e r,
     Unmarshal_GetNodesResp payload zero_GetNodesResp = (Some e, r) /\
     err = ErrParseGetNodes e) \/
  (exists r,
     Unmarshal_GetNodesResp payload zero_GetNodesResp = (None, r) /\
     gn_Success r = false /\ err = ErrUnsuccessfulGetNodes) ->
  handleGetNodesResp payload receiver s =
    Some (s, (Some err, if receiver then Some (Some err) else None)) /\
  ((exists e, err = ErrParseGetNodes e) -> kind err = Some Malformed) /\
  (err = ErrUnsuccessfulGetNodes -> kind err = None).
Proof.
  intros [(e & r & Hdec & ->) | (r & Hdec & Hok & ->)];
    unfold handleGetNodesResp, handleGetNodesResp_func; rewrite Hdec.
  - split; [reflexivity|]. split; [reflexivity|discriminate].
  - rewrite Hok. split; [reflexivity|].
    split; [intros [e He]; discriminate|reflexivity].
Qed.

Lemma bootstrap_refused_keeps_state_witness :
  handleGetNodesResp (H := Traffic.json) Traffic.boot_refused true
    Fixture.watching =
    Some (Fixture.watching,
          (Some ErrUnsuccessfulGetNodes,
           Some (Some ErrUnsuccessfulGetNodes))) /\
  handleGetNodesResp (H := Traffic.json) "{" false Fixture.watching =
    Some (Fixture.watching,
          (Some (ErrParseGetNodes (ExternalError "json: text outside the table")), None)) /\
  kind (ErrParseGetNodes (ExternalError "json: text outside the table"))
    = Some Malformed.
Proof.
  split; [|split].
  - apply (bootstrap_refused_keeps_state (H := Traffic.json)).
    right. eexists. split; [vm_compute; reflexivity|]. split; reflexivity.
  - apply (bootstrap_refused_keeps_state (H := Traffic.json)).
    left. eexists _, _. split; [vm_compute; reflexivity|reflexivity].
  - apply (bootstrap_refused_keeps_state (H := Traffic.json)
             Fixture.watching "{" false).
    + left. eexists _, _. split; [vm_compute; reflexivity|reflexivity].
    + eexists. reflexivity.
Defined.

Section BootstrapMore.
Context `{EncodingJSON}.

(** Lookups in the two value indices of a node. *)
Lemma fold_insert_last (key : Value -> string) (vs : list (string * Value)) :
  forall (m : gmap string Value) (k : string),
    fold_left (fun m kv => <[key (snd kv) := snd kv]> m) vs m !! k =
      match Values_last key vs k with
      | Some v => Some v
      | None => m !! k
      end.
Proof.
  induction vs as [|[id v] vs IH]; intros m k; simpl; [reflexivity|].
  rewrite IH. destruct (Values_last key vs k); [reflexivity|].
  destruct (key v =? k) eqn:Hk.
  - apply String.eqb_eq in Hk. rewrite <- Hk. apply lookup_insert_eq.
  - apply String.eqb_neq in Hk. apply lookup_insert_ne. exact Hk.
Qed.

Lemma Values_last_key (key : Value -> string) (vs : list (string * Value))
    (k : string) (v : Value) :
  Values_last key vs k = Some v ->
  key v = k /\ exists id, In (id, v) vs.
Proof.
  induction vs as [|[id v'] vs IH]; simpl; [discriminate|].
  destruct (Values_last key vs k) as [v''|].
  - intros [= ->]. destruct (IH eq_refl) as (Hk & id' & Hin).
    split; [exact Hk|]. exists id'. now right.
  - destruct (key v' =? k) eqn:Hk; [|discriminate].
    intros [= ->]. apply String.eqb_eq in Hk. split; [exact Hk|].
    exists id. now left.
Qed.

Lemma Values_last_none (key : Value -> string) (vs : list (string * Value))
    (k : string) :
  Values_last key vs k = None <->
  forall id v, In (id, v) vs -> key v <> k.
Proof.
  induction vs as [|[id v'] vs IH]; simpl.
  - split; [intros _ id v []|reflexivity].
  - destruct (Values_last key vs k) as [v''|] eqn:Hl.
    + split; [discriminate|]. intros Hall.
      destruct (Values_last_key _ _ _ _ Hl) as (Hk & id' & Hin).
      destruct (Hall id' v'' (or_intror Hin) Hk).
    + destruct (key v' =? k) eqn:Hk.
      * split; [discriminate|]. intros Hall. apply String.eqb_eq in Hk.
        destruct (Hall id v' (or_introl eq_refl) Hk).
      * apply String.eqb_neq in Hk. split; [|reflexivity].
        intros _ id' v [[= <- <-] | Hin]; [exact Hk|].
        exact (proj1 IH eq_refl id' v Hin).
Qed.

(** What an index built from a listing holds under a key, said without
    the order of the listing: a value found has the key and is in the
    listing; nothing is found exactly when no value has the key; and when
    the values that have the key are all the same value, that value is
    found. *)
Lemma index_members (key : Value -> string) (vs : list (string * Value))
    (k : string) :
  let idx :=
    fold_left (fun m kv => <[key (snd kv) := snd kv]> m) vs
      (∅ : gmap string Value) in
  (forall v, idx !! k = Some v ->
     key v = k /\ exists id, In (id, v) vs) /\
  (idx !! k = None <-> forall id v, In (id, v) vs -> key v <> k) /\
  (forall id v, In (id, v) vs -> key v = k ->
     (forall id' v', In (id', v') vs -> key v' = k -> v' = v) ->
     idx !! k = Some v).
Proof.
  intros idx.
  assert (Hidx : idx !! k = Values_last key vs k).
  { unfold idx. rewrite fold_insert_last, lookup_empty.
    now destruct (Values_last key vs k). }
  rewrite Hidx. split; [|split].
  - intros v Hv. exact (Values_last_key _ _ _ _ Hv).
  - apply Values_last_none.
  - intros id v Hin Hk Huniq.
    destruct (Values_last key vs k) as [v'|] eqn:Hl.
    + destruct (Values_last_key _ _ _ _ Hl) as (Hk' & id' & Hin').
      f_equal. exact (Huniq id' v' Hin' Hk').
    + destruct (proj1 (Values_last_none key vs k) Hl id v Hin Hk).
Qed.

(** The entry of an index under a key is the same for every order of the
    listing, when the values that have the key are all the same value. *)
Lemma index_any_order (key : Value -> string)
    (vs vs' : list (string * Value)) (k : string) :
  Permutation vs vs' ->
  (forall id v id' v', In (id, v) vs -> In (id', v') vs ->
     key v = k -> key v' = k -> v = v') ->
  fold_left (fun m kv => <[key (snd kv) := snd kv]> m) vs'
    (∅ : gmap string Value) !! k =
  fold_left (fun m kv => <[key (snd kv) := snd kv]> m) vs
    (∅ : gmap string Value) !! k.
Proof.
  intros Hperm Huniq.
  destruct (index_members key vs k) as (Hsome & Hnone & Hone).
  destruct (index_members key vs' k) as (_ & Hnone' & Hone').
  destruct (fold_left _ vs ∅ !! k) as [v|] eqn:Hl.
  - destruct (Hsome v eq_refl) as (Hk & id & Hin).
    apply (Hone' id v); [exact (Permutation_in _ Hperm Hin) | exact Hk |].
    intros id' v' Hin' Hk'.
    apply (Huniq id' v' id v); try assumption.
    exact (Permutation_in _ (Permutation_sym Hperm) Hin').
  - apply Hnone'. intros id v Hin.
    apply (proj1 Hnone eq_refl id v).
    exact (Permutation_in _ (Permutation_sym Hperm) Hin).
Qed.

(** The step of the loop over an entry that is installed, and the rest of
    the loop, keep what is indexed under names and ids of their own. *)
Lemma range_installs_shared (pre post : list api.Node) (n : api.Node) :
  forall s s',
    handleGetNodesResp_range (pre ++ n :: post)%list s = (s', None) ->
    Failed n = false -> Name n <> EmptyString ->
    (forall m, In m post -> Failed m = false -> Node_ID m <> Node_ID n) ->
    exists vw,
      nodesByName s' !! Name n = Some (newNode n vw) /\
      nodesByID s' !! Node_ID n = Some (newNode n vw).
Proof.
  intros s s' Hr Hf Hne Hlast. rewrite range_app in Hr.
  destruct (handleGetNodesResp_range pre s) as [s1 [err|]];
    [discriminate|].
  rewrite range_cons, Hf in Hr.
  destruct (nodesByName s1 !! Name n); [discriminate|].
  exists (next s1). split.
  - apply (range_keeps_names _ _ _ _ _ Hr).
    rewrite nodesByName_install. apply String.eqb_neq in Hne.
    rewrite Hne. apply lookup_insert_eq.
  - rewrite (range_ids_frame _ _ _ _ Hr Hlast).
    rewrite nodesByID_install. apply lookup_insert_eq.
Qed.

End BootstrapMore.

(** X7.  After a bootstrap that succeeds, a live entry with a name, which
    is the last live entry of its id, is indexed under its name and under
    its id by one and the same node: the two lookups give the same values
    and the same watchers map, so that what [WatchValue] registers through
    the name is what [handleNodeValueUpdated] finds through the id. *)
Theorem bootstrap_indices_agree `{EncodingJSON}
    (s s' : State) (payload : bytes) (receiver : bool)
    (sent : option error) (resp : GetNodesResp)
    (pre post : list api.Node) (n : api.Node) :
  handleGetNodesResp payload receiver s = Some (s', (None, sent)) ->
  Unmarshal_GetNodesResp payload zero_GetNodesResp = (None, resp) ->
  Result resp = (pre ++ n :: post)%list ->
  Failed n = false -> Name n <> EmptyString ->
  (forall m, In m post -> Failed m = false -> Node_ID m <> Node_ID n) ->
  exists node,
    nodesByName s' !! Name n = Some node /\
    nodesByID s' !! Node_ID n = Some node /\
    Node_api node = n /\
    watcherMap s' (valueWatchers node) = ∅.
Proof.
  unfold handleGetNodesResp, handleGetNodesResp_func.
  intros Hrun Hdec Hres Hf Hne Hlast. rewrite Hdec in Hrun.
  destruct (gn_Success resp); simpl in Hrun; [|discriminate].
  destruct (mu s); [discriminate|].
  destruct (handleGetNodesResp_range (Result resp) _) as [s1 err] eqn:Hr.
  injection Hrun as -> -> _. rewrite Hres in Hr.
  destruct (range_installs_shared _ _ _ _ _ Hr Hf Hne Hlast)
    as (vw & Hname & Hid).
  exists (newNode n vw). split; [exact Hname|]. split; [exact Hid|].
  split; [reflexivity|].
  apply map_eq. intros property. rewrite lookup_empty.
  destruct (watcherMap s' (valueWatchers (newNode n vw)) !! property)
    as [w|] eqn:Hw; [|reflexivity].
  assert (Href : referenced w s').
  { exists (newNode n vw), property. split; [|exact Hw].
    right. eexists. exact Hid. }
  apply (range_referenced _ _ _ _ w Hr) in Href.
  destruct Href as (m & q & [[name Hm] | [id Hm]] & _);
    simpl in Hm; rewrite lookup_empty in Hm; discriminate.
Qed.

Lemma bootstrap_indices_agree_witness :
  exists node,
    nodesByName Fixture.den !! "den" = Some node /\
    nodesByID Fixture.den !! 9 = Some node /\
    Node_api node = Fixture.device 9 "den" false EmptyString /\
    watcherMap Fixture.den (valueWatchers node) = ∅.
Proof.
  apply (bootstrap_indices_agree (H := Fixture.json) Fixture.kitchen
           Fixture.den Fixture.boot_den false None
           {| gn_Success := true; gn_Message := EmptyString;
              Result := [Fixture.device 4 "kitchen-light" true EmptyString;
                         Fixture.device 9 "den" false EmptyString] |}
           [Fixture.device 4 "kitchen-light" true EmptyString] []
           (Fixture.device 9 "den" false EmptyString)).
  - vm_compute. reflexivity.
  - vm_compute. reflexivity.
  - reflexivity.
  - reflexivity.
  - discriminate.
  - intros m [].
Defined.

(** X8.  The two value indices of a node, whatever the order in which the
    loop visits the values of the response entry (Go does not fix the
    order of a [range] over a map).  A value found under a key has that
    key, its property name for [valuesByProperty] and its id for
    [valuesByID], and is a value of the entry; nothing is found under a
    key exactly when no value of the entry has it.  When the values of the
    entry that have the key are all the same value, the index holds that
    value under the key for every order of the visit; only when two
    different values share a key does the order decide which one is
    found. *)
Theorem newNode_indexes_members (n : api.Node) (vw : ref) (k : string) :
  let property v := StringInt_String (Property v) in
  let one (key : Value -> string) :=
    forall id v id' v', In (id, v) (Values n) -> In (id', v') (Values n) ->
      key v = k -> key v' = k -> v = v' in
  (forall v, valuesByProperty (newNode n vw) !! k = Some v ->
     property v = k /\ exists id, In (id, v) (Values n)) /\
  (valuesByProperty (newNode n vw) !! k = None <->
   forall id v, In (id, v) (Values n) -> property v <> k) /\
  (forall v, valuesByID (newNode n vw) !! k = Some v ->
     ID v = k /\ exists id, In (id, v) (Values n)) /\
  (valuesByID (newNode n vw) !! k = None <->
   forall id v, In (id, v) (Values n) -> ID v <> k) /\
  (forall n' vw', Permutation (Values n) (Values n') ->
     (one property ->
      forall id v, In (id, v) (Values n) -> property v = k ->
        valuesByProperty (newNode n' vw') !! k = Some v) /\
     (one ID ->
      forall id v, In (id, v) (Values n) -> ID v = k ->
        valuesByID (newNode n' vw') !! k = Some v)).
Proof.
  intros property one.
  destruct (index_members property (Values n) k) as (Hp1 & Hp2 & Hp3).
  destruct (index_members ID (Values n) k) as (Hi1 & Hi2 & Hi3).
  split; [exact Hp1|]. split; [exact Hp2|].
  split; [exact Hi1|]. split; [exact Hi2|].
  intros n' vw' Hperm. split; intros Hone id v Hin Hk.
  - etransitivity; [exact (index_any_order property _ _ k Hperm Hone)|].
    apply (Hp3 id v Hin Hk). intros id' v' Hin' Hk'.
    exact (Hone id' v' id v Hin' Hin Hk' Hk).
  - etransitivity; [exact (index_any_order ID _ _ k Hperm Hone)|].
    apply (Hi3 id v Hin Hk). intros id' v' Hin' Hk'.
    exact (Hone id' v' id v Hin' Hin Hk' Hk).
Qed.

Lemma newNode_indexes_members_witness :
  let level := {| ID := "38-0-level"; NodeID := 4; CommandClass := 38;
                  Endpoint := 0;
                  Property := {| StringInt_s := "level"; StringInt_i := 0 |};
                  Type_ := "number"; RawValue := "1" |} in
  let power := {| ID := "37-0-power"; NodeID := 4; CommandClass := 37;
                  Endpoint := 0;
                  Property := {| StringInt_s := "power"; StringInt_i := 0 |};
                  Type_ := "boolean"; RawValue := "true" |} in
  let n := {| Node_ID := 4; Name := "lamp"; Failed := false;
              Values := [("38-0-level", level); ("37-0-power", power)] |} in
  let n' := {| Node_ID := 4; Name := "lamp"; Failed := false;
               Values := [("37-0-power", power); ("38-0-level", level)] |} in
  valuesByProperty (newNode n' 1%positive) !! "level" = Some level /\
  valuesByID (newNode n' 1%positive) !! "37-0-power" = Some power /\
  valuesByProperty (newNode n 1%positive) !! "colour" = None.
Proof.
  intros level power n n'.
  destruct (newNode_indexes_members n 1%positive "level")
    as (_ & _ & _ & _ & Hlevel).
  destruct (newNode_indexes_members n 1%positive "37-0-power")
    as (_ & _ & _ & _ & Hpower).
  destruct (newNode_indexes_members n 1%positive "colour")
    as (_ & Hnone & _).
  split; [|split].
  - apply (proj1 (Hlevel n' 1%positive (perm_swap _ _ _))) with "38-0-level".
    + intros id v id' v' [[= <- <-]|[[= <- <-]|[]]] [[= <- <-]|[[= <- <-]|[]]];
        intros; (reflexivity || discriminate).
    + now left.
    + reflexivity.
  - apply (proj2 (Hpower n' 1%positive (perm_swap _ _ _))) with "37-0-power".
    + intros id v id' v' [[= <- <-]|[[= <- <-]|[]]] [[= <- <-]|[[= <- <-]|[]]];
        intros; (reflexivity || discriminate).
    + now right; left.
    + reflexivity.
  - apply Hnone.
    intros id v [[= <- <-]|[[= <- <-]|[]]]; discriminate.
Defined.

(** ** More on SetAttr *)

Section SetAttrMore.
Context `{EncodingJSON}.

Lemma SetAttr_start_registers (s : State) (nodeName property : string)
    (value : any) (n : Node) (v : Value) (payload : bytes)
    (o : select_case) :
  mu s = false ->
  nodesByName s !! nodeName = Some n ->
  valuesByProperty n !! property = Some v ->
  Marshal_APIArgs {| Args := [any_ValueID (ValueID_of v); value] |}
    = (payload, None) ->
  SetAttr_step o (SetAttr_start nodeName property value) s =
    Some (set_setAttr (<[ValueID_of v := next s]> (setAttr s))
            (set_waitBufs (<[next s := []]> (waitBufs s))
               (set_next (Pos.succ (next s)) s)),
          SetAttr_publish (ValueID_of v) (next s) payload).
Proof.
  intros Hmu Hn Hv Hm. simpl. rewrite Hmu, Hn, Hv.
  unfold Value_WriteValue. cbn [Args]. fold (ValueID_of v).
  rewrite Hm. reflexivity.
Qed.

End SetAttrMore.

(** X9.  A [SetAttr] call for a known device and property, whose message
    encodes, registers a new, empty channel under the identifier built
    from the value (node id, command class, endpoint, property name), and
    then publishes exactly one message: the encoding of the two-element
    array made of that identifier and of the caller's value, on the
    write-value topic.  If the transport accepts it the call waits at its
    [select]; if not, the call is on its way out with the transport's
    error. *)
Theorem SetAttr_registers_then_publishes `{EncodingJSON}
    (s : State) (nodeName property : string) (value : any)
    (n : Node) (v : Value) (payload : bytes) (o o' : select_case) :
  mu s = false ->
  nodesByName s !! nodeName = Some n ->
  valuesByProperty n !! property = Some v ->
  Marshal_APIArgs {| Args := [any_ValueID (ValueID_of v); value] |}
    = (payload, None) ->
  let topic := "_CLIENTS/ZWAVE_GATEWAY/api/writeValue/set" in
  exists s1 s2,
    SetAttr_step o (SetAttr_start nodeName property value) s =
      Some (s1, SetAttr_publish (ValueID_of v) (next s) payload) /\
    setAttr s1 = <[ValueID_of v := next s]> (setAttr s) /\
    waitBuf s1 (next s) = [] /\
    published s1 = published s /\
    SetAttr_step o' (SetAttr_publish (ValueID_of v) (next s) payload) s1 =
      Some (s2,
            match p s topic payload with
            | Some err => SetAttr_deferred (ValueID_of v) (Some err)
            | None => SetAttr_select (ValueID_of v) (next s)
            end) /\
    published s2 = (published s ++ [(topic, payload)])%list /\
    setAttr s2 = setAttr s1 /\
    nodesByName s2 = nodesByName s /\ nodesByID s2 = nodesByID s.
Proof.
  intros Hmu Hn Hv Hm topic.
  eexists _, _.
  split; [exact (SetAttr_start_registers _ _ _ _ _ _ _ o Hmu Hn Hv Hm)|].
  split; [reflexivity|]. split.
  { unfold waitBuf. simpl. now rewrite lookup_insert_eq. }
  split; [reflexivity|]. split.
  { simpl. unfold Publish. simpl. fold topic.
    destruct (p s topic payload); reflexivity. }
  repeat split.
Qed.

Lemma SetAttr_registers_then_publishes_witness :
  exists s1 s2,
    SetAttr_step (H := Fixture.json) case_recv
      (SetAttr_start "kitchen-light" "currentValue" (any_int 50))
      Fixture.kitchen =
      Some (s1, SetAttr_publish Fixture.vid_kitchen 2%positive
                  (Fixture.dq (Fixture.write_text 50))) /\
    SetAttr_step (H := Fixture.json) case_recv
      (SetAttr_publish Fixture.vid_kitchen 2%positive
         (Fixture.dq (Fixture.write_text 50))) s1 =
      Some (s2, SetAttr_select Fixture.vid_kitchen 2%positive) /\
    published s2 =
      [(Fixture.write_topic, Fixture.dq (Fixture.write_text 50))].
Proof.
  destruct (SetAttr_registers_then_publishes (H := Fixture.json)
              Fixture.kitchen "kitchen-light" "currentValue" (any_int 50)
              (newNode (Fixture.device 4 "kitchen-light" false EmptyString)
                 1%positive)
              (Fixture.currentValue 4 EmptyString)
              (Fixture.dq (Fixture.write_text 50)) case_recv case_recv)
    as (s1 & s2 & H1 & _ & _ & _ & H2 & H3 & _);
    try (vm_compute; reflexivity).
  exists s1, s2. split; [exact H1|]. split; [exact H2|exact H3].
Defined.

(** X10.  A call that registered and then fails cleans up after itself.
    Whether the transport refuses the publication or the caller's context
    is done while the call waits, the call returns that error, the entry
    of its key is gone from the pending-write table, which is otherwise
    as it was, and exactly one message was handed to the transport. *)
Theorem SetAttr_failure_cleans_up `{EncodingJSON}
    (s : State) (nodeName property : string) (value : any)
    (n : Node) (v : Value) (payload : bytes) (o1 o2 o3 o4 : select_case) :
  mu s = false ->
  nodesByName s !! nodeName = Some n ->
  valuesByProperty n !! property = Some v ->
  Marshal_APIArgs {| Args := [any_ValueID (ValueID_of v); value] |}
    = (payload, None) ->
  let topic := "_CLIENTS/ZWAVE_GATEWAY/api/writeValue/set" in
  let start := SetAttr_start nodeName property value in
  (forall e, p s topic payload = Some e ->
     exists s',
       SetAttr_alone [o1; o2; o3] start s =
         Some (s', SetAttr_return (Some e)) /\
       setAttr s' = delete (ValueID_of v) (setAttr s) /\
       published s' = (published s ++ [(topic, payload)])%list) /\
  (forall e, p s topic payload = None ->
     exists s',
       SetAttr_alone [o1; o2; case_ctx_Done e; o4] start s =
         Some (s', SetAttr_return (Some e)) /\
       setAttr s' = delete (ValueID_of v) (setAttr s) /\
       published s' = (published s ++ [(topic, payload)])%list).
Proof.
  intros Hmu Hn Hv Hm topic start.
  pose proof (SetAttr_start_registers s nodeName property value n v payload
                o1 Hmu Hn Hv Hm) as Hstart.
  split; intros e Hp; unfold SetAttr_alone; fold start in Hstart;
    rewrite Hstart; simpl; unfold Publish; simpl; fold topic;
    rewrite Hp; simpl; rewrite Hmu; simpl;
    (eexists; split; [reflexivity|]; split;
     [simpl; apply delete_insert_eq|reflexivity]).
Qed.

Lemma SetAttr_failure_cleans_up_witness :
  let s := Fixture.after [recv_GetNodesResp Fixture.boot_kitchen None]
             (NewBroker Traffic.refusing) in
  (exists s',
     SetAttr_alone (H := Fixture.json) [case_recv; case_recv; case_recv]
       (SetAttr_start "kitchen-light" "currentValue" (any_int 50)) s =
       Some (s', SetAttr_return (Some Traffic.broken)) /\
     setAttr s' = delete Fixture.vid_kitchen (setAttr s)) /\
  (exists s',
     SetAttr_alone (H := Fixture.json)
       [case_recv; case_recv; case_ctx_Done Fixture.deadline; case_recv]
       (SetAttr_start "kitchen-light" "currentValue" (any_int 50))
       Fixture.kitchen =
       Some (s', SetAttr_return (Some Fixture.deadline)) /\
     setAttr s' = delete Fixture.vid_kitchen (setAttr Fixture.kitchen)).
Proof.
  intros s. split.
  - destruct (SetAttr_failure_cleans_up (H := Fixture.json) s
                "kitchen-light" "currentValue" (any_int 50)
                (newNode
                   (Fixture.device 4 "kitchen-light" false EmptyString)
                   1%positive)
                (Fixture.currentValue 4 EmptyString)
                (Fixture.dq (Fixture.write_text 50))
                case_recv case_recv case_recv case_recv)
      as [Hrefused _]; try (vm_compute; reflexivity).
    destruct (Hrefused Traffic.broken) as (s' & Hrun & Htable & _);
      [reflexivity|].
    exists s'. split; [exact Hrun|exact Htable].
  - destruct (SetAttr_failure_cleans_up (H := Fixture.json) Fixture.kitchen
                "kitchen-light" "currentValue" (any_int 50)
                (newNode
                   (Fixture.device 4 "kitchen-light" false EmptyString)
                   1%positive)
                (Fixture.currentValue 4 EmptyString)
                (Fixture.dq (Fixture.write_text 50))
                case_recv case_recv case_recv case_recv)
      as [_ Hdeadline]; try (vm_compute; reflexivity).
    destruct (Hdeadline Fixture.deadline) as (s' & Hrun & Htable & _);
      [reflexivity|].
    exists s'. split; [exact Hrun|exact Htable].
Defined.

(** X11.  The whole of an acknowledged write.  The call registers and
    publishes; the acknowledgement that carries the call's identifier
    arrives; the call receives the outcome, cleans up and returns it: nil
    for [success:true], the not-successful error with the gateway's message
    otherwise.  Afterwards the entry of the key is gone from the table, the
    call's channel is empty again, and one message was published. *)
Theorem SetAttr_acknowledged `{EncodingJSON}
    (s : State) (nodeName property : string) (value : any)
    (n : Node) (v : Value) (payload ack : bytes) (resp : WriteValueResp)
    (o1 o2 o3 : select_case) :
  mu s = false ->
  nodesByName s !! nodeName = Some n ->
  valuesByProperty n !! property = Some v ->
  Marshal_APIArgs {| Args := [any_ValueID (ValueID_of v); value] |}
    = (payload, None) ->
  let topic := "_CLIENTS/ZWAVE_GATEWAY/api/writeValue/set" in
  p s topic payload = None ->
  WriteValueResp_UnmarshalJSON ack zero_WriteValueResp = (None, resp) ->
  wv_ValueID resp = ValueID_of v ->
  let ret :=
    if wv_Success resp then None
    else Some (ErrWriteNotSuccessful (wv_Message resp)) in
  exists s2 s3 s5,
    SetAttr_alone [o1; o2] (SetAttr_start nodeName property value) s =
      Some (s2, SetAttr_select (ValueID_of v) (next s)) /\
    handleWriteValueResp ack s2 = Some (s3, ret) /\
    SetAttr_alone [case_recv; o3]
      (SetAttr_select (ValueID_of v) (next s)) s3 =
      Some (s5, SetAttr_return ret) /\
    setAttr s5 = delete (ValueID_of v) (setAttr s) /\
    waitBuf s5 (next s) = [] /\
    published s5 = (published s ++ [(topic, payload)])%list.
Proof.
  intros Hmu Hn Hv Hm topic Hp Hdec Hvid ret.
  pose proof (SetAttr_start_registers s nodeName property value n v payload
                o1 Hmu Hn Hv Hm) as Hstart.
  subst ret. destruct (wv_Success resp) eqn:Hs.
  all: eexists _, _, _; split;
    [unfold SetAttr_alone; rewrite Hstart; simpl; unfold Publish; simpl;
     fold topic; rewrite Hp; reflexivity|].
  all: split;
    [unfold handleWriteValueResp; rewrite Hdec; simpl;
     rewrite Hmu, Hvid, lookup_insert_eq, Hs;
     unfold send_wait, waitBuf; simpl; rewrite lookup_insert_eq;
     reflexivity|].
  all: split;
    [unfold SetAttr_alone, SetAttr_step, waitBuf; simpl;
     rewrite lookup_insert_eq; simpl; rewrite Hmu; reflexivity|].
  all: split; [simpl; apply delete_insert_eq|]; split; [|reflexivity].
  all: unfold waitBuf; simpl; now rewrite lookup_insert_eq.
Qed.

Lemma SetAttr_acknowledged_witness :
  exists s2 s3 s5,
    SetAttr_alone (H := Fixture.json) [case_recv; case_recv]
      (SetAttr_start "kitchen-light" "currentValue" (any_int 10))
      Fixture.kitchen =
      Some (s2, SetAttr_select Fixture.vid_kitchen 2%positive) /\
    handleWriteValueResp (H := Fixture.json) Fixture.ack_ok_10 s2 =
      Some (s3, None) /\
    SetAttr_alone (H := Fixture.json) [case_recv; case_recv]
      (SetAttr_select Fixture.vid_kitchen 2%positive) s3 =
      Some (s5, SetAttr_return None) /\
    setAttr s5 = delete Fixture.vid_kitchen (setAttr Fixture.kitchen).
Proof.
  destruct (SetAttr_acknowledged (H := Fixture.json) Fixture.kitchen
              "kitchen-light" "currentValue" (any_int 10)
              (newNode (Fixture.device 4 "kitchen-light" false EmptyString)
                 1%positive)
              (Fixture.currentValue 4 EmptyString)
              (Fixture.dq (Fixture.write_text 10)) Fixture.ack_ok_10
              {| wv_Success := true; wv_Message := "Success zwave api call";
                 wv_ValueID := Fixture.vid_kitchen; wv_Value := "10" |}
              case_recv case_recv case_recv)
    as (s2 & s3 & s5 & H1 & H2 & H3 & H4 & _);
    try (vm_compute; reflexivity).
  exists s2, s3, s5. repeat (split; [assumption|]). exact H4.
Defined.

(** X12.  When [json.Marshal] rejects the message of a [SetAttr] call (the
    caller's value cannot be encoded), the call returns that error from
    inside the locked region without releasing the mutex.  Nothing was
    registered or published; but from then on every operation that takes
    the lock is blocked: [WatchValue], the closures it returned, [SetAttr]
    (a new call, or the cleanup of a call in flight), and each of the three
    handlers once its message has decoded. *)
Theorem SetAttr_marshal_error_holds_mutex `{EncodingJSON}
    (s : State) (nodeName property : string) (value : any)
    (n : Node) (v : Value) (payload : bytes) (err : Err)
    (o : select_case) :
  mu s = false ->
  nodesByName s !! nodeName = Some n ->
  valuesByProperty n !! property = Some v ->
  Marshal_APIArgs {| Args := [any_ValueID (ValueID_of v); value] |}
    = (payload, Some err) ->
  exists s1,
    SetAttr_step o (SetAttr_start nodeName property value) s =
      Some (s1, SetAttr_return (Some err)) /\
    mu s1 = true /\ setAttr s1 = setAttr s /\
    published s1 = published s /\
    (forall nodeName' property' v',
       WatchValue nodeName' property' v' s1 = None) /\
    (forall c, cancel c s1 = None) /\
    (forall o' nodeName' property' value',
       SetAttr_step o' (SetAttr_start nodeName' property' value') s1
       = None) /\
    (forall o' vid ret,
       SetAttr_step o' (SetAttr_deferred vid ret) s1 = None) /\
    (forall ack resp,
       WriteValueResp_UnmarshalJSON ack zero_WriteValueResp = (None, resp)
       -> handleWriteValueResp ack s1 = None) /\
    (forall payload' resp receiver,
       Unmarshal_GetNodesResp payload' zero_GetNodesResp = (None, resp) ->
       gn_Success resp = true ->
       handleGetNodesResp payload' receiver s1 = None) /\
    (forall payload' ready update val,
       NodeValueUpdate_UnmarshalJSON payload' zero_Value = (None, update)
       -> Value_Value update = (val, None) ->
       handleNodeValueUpdated payload' ready s1 = None).
Proof.
  intros Hmu Hn Hv Hm. exists (set_mu true s). split.
  { simpl. rewrite Hmu, Hn, Hv. unfold Value_WriteValue. cbn [Args].
    fold (ValueID_of v). rewrite Hm. reflexivity. }
  repeat split.
  - intros ack resp Hdec. unfold handleWriteValueResp. rewrite Hdec.
    reflexivity.
  - intros payload' resp receiver Hdec Hok.
    unfold handleGetNodesResp, handleGetNodesResp_func.
    rewrite Hdec, Hok. reflexivity.
  - intros payload' ready update val Hdec Hval.
    unfold handleNodeValueUpdated. rewrite Hdec, Hval. reflexivity.
Qed.

Lemma SetAttr_marshal_error_holds_mutex_witness :
  exists s1,
    SetAttr_step (H := Fixture.json) case_recv
      (SetAttr_start "kitchen-light" "currentValue" (any_other "chan int"))
      Fixture.kitchen =
      Some (s1, SetAttr_return
                  (Some (ExternalError "json: unsupported type"))) /\
    mu s1 = true /\
    handleWriteValueResp (H := Fixture.json) Fixture.ack_ok_10 s1 = None.
Proof.
  destruct (SetAttr_marshal_error_holds_mutex (H := Fixture.json)
              Fixture.kitchen "kitchen-light" "currentValue"
              (any_other "chan int")
              (newNode (Fixture.device 4 "kitchen-light" false EmptyString)
                 1%positive)
              (Fixture.currentValue 4 EmptyString) EmptyString
              (ExternalError "json: unsupported type") case_recv)
    as (s1 & Hrun & Hmu & _ & _ & _ & _ & _ & _ & Hack & _);
    try (vm_compute; reflexivity).
  exists s1. split; [exact Hrun|]. split; [exact Hmu|].
  apply (Hack Fixture.ack_ok_10
           {| wv_Success := true; wv_Message := "Success zwave api call";
              wv_ValueID := Fixture.vid_kitchen; wv_Value := "10" |}).
  vm_compute. reflexivity.
Defined.

(** ** Messages that are refused *)

(** X13.  An acknowledgement whose [args] array does not have exactly two
    elements is refused with an error of the Malformed class that gives
    the length found.  The handler returns that error without taking the
    lock: no pending call is touched, whatever the table holds. *)
Theorem ack_with_wrong_args_refused `{EncodingJSON}
    (s : State) (payload : bytes) (obj : writeValueObj) :
  Unmarshal_writeValueObj payload zero_writeValueObj = (None, obj) ->
  length (obj_Args obj) <> 2%nat ->
  WriteValueResp_UnmarshalJSON payload zero_WriteValueResp =
    (Some (ErrArgsLength (length (obj_Args obj))), zero_WriteValueResp) /\
  handleWriteValueResp payload s =
    Some (s, Some (ErrArgsLength (length (obj_Args obj)))) /\
  kind (ErrArgsLength (length (obj_Args obj))) = Some Malformed.
Proof.
  intros Hdec Hlen.
  assert (Hu : WriteValueResp_UnmarshalJSON payload zero_WriteValueResp =
               (Some (ErrArgsLength (length (obj_Args obj))),
                zero_WriteValueResp)).
  { unfold WriteValueResp_UnmarshalJSON. rewrite Hdec.
    destruct (obj_Args obj) as [|a0 [|a1 [|a2 args]]]; try reflexivity.
    destruct Hlen. reflexivity. }
  split; [exact Hu|]. split; [|reflexivity].
  unfold handleWriteValueResp. rewrite Hu. reflexivity.
Qed.

Lemma ack_with_wrong_args_refused_witness :
  handleWriteValueResp (H := Traffic.json) Traffic.ack_short
    Fixture.inflight = Some (Fixture.inflight, Some (ErrArgsLength 1)).
Proof.
  destruct (ack_with_wrong_args_refused (H := Traffic.json)
              Fixture.inflight Traffic.ack_short
              {| obj_Success := true;
                 obj_Message := "Success zwave api call";
                 obj_Args := [Fixture.dq Fixture.vid_text] |})
    as (_ & Hrun & _).
  - vm_compute. reflexivity.
  - simpl. lia.
  - exact Hrun.
Defined.

(** X14.  A notification whose [data] array does not have exactly two
    elements is refused with an error of the Malformed class that gives
    the length found; the handler returns it and sends nothing, whoever is
    watching. *)
Theorem notification_with_wrong_data_refused `{EncodingJSON}
    (s : State) (payload : bytes) (ready : chan_any -> bool)
    (data : list bytes) :
  Unmarshal_data payload [] = (None, data) ->
  length data <> 2%nat ->
  NodeValueUpdate_UnmarshalJSON payload zero_Value =
    (Some (ErrDataLength (length data)), zero_Value) /\
  handleNodeValueUpdated payload ready s =
    Some (Some (ErrDataLength (length data)), []) /\
  kind (ErrDataLength (length data)) = Some Malformed.
Proof.
  intros Hdec Hlen.
  assert (Hu : NodeValueUpdate_UnmarshalJSON payload zero_Value =
               (Some (ErrDataLength (length data)), zero_Value)).
  { unfold NodeValueUpdate_UnmarshalJSON. rewrite Hdec.
    destruct data as [|d0 [|d1 [|d2 data]]]; try reflexivity.
    destruct Hlen. reflexivity. }
  split; [exact Hu|]. split; [|reflexivity].
  unfold handleNodeValueUpdated. rewrite Hu. reflexivity.
Qed.

Lemma notification_with_wrong_data_refused_witness :
  handleNodeValueUpdated (H := Traffic.json) Traffic.update_short
    (fun _ => true) Fixture.watching =
    Some (Some (ErrDataLength 1), []).
Proof.
  destruct (notification_with_wrong_data_refused (H := Traffic.json)
              Fixture.watching Traffic.update_short (fun _ => true)
              [Fixture.dq (Fixture.snapshot_text "4")])
    as (_ & Hrun & _).
  - vm_compute. reflexivity.
  - simpl. lia.
  - exact Hrun.
Defined.

(** X15.  A notification whose value does not decode reaches no watcher.
    When [Value.Value] fails on the value found in the snapshot, the
    handler returns that error, of the TypeMismatch class, before it looks
    at the directory, and sends nothing.  This is what happens to every
    notification about a value of a list type. *)
Theorem notification_with_bad_value_refused `{EncodingJSON}
    (s : State) (payload : bytes) (ready : chan_any -> bool)
    (update : Value) :
  NodeValueUpdate_UnmarshalJSON payload zero_Value = (None, update) ->
  (forall x err, Value_Value update = (x, Some err) ->
     handleNodeValueUpdated payload ready s = Some (Some err, [])) /\
  (Type_ update = TypeListNumber \/ Type_ update = TypeListBool \/
   Type_ update = TypeListString ->
     handleNodeValueUpdated payload ready s =
       Some (Some (ErrUnknownValueType (Type_ update)), []) /\
     kind (ErrUnknownValueType (Type_ update)) = Some TypeMismatch).
Proof.
  intros Hdec.
  assert (Hfail : forall x err, Value_Value update = (x, Some err) ->
            handleNodeValueUpdated payload ready s = Some (Some err, [])).
  { intros x err Hval. unfold handleNodeValueUpdated.
    rewrite Hdec, Hval. reflexivity. }
  split; [exact Hfail|]. intros Hty. split; [|reflexivity].
  apply (Hfail any_nil).
  destruct Hty as [Ht | [Ht | Ht]]; unfold Value_Value; rewrite Ht;
    reflexivity.
Qed.

Lemma notification_with_bad_value_refused_witness :
  handleNodeValueUpdated (H := Traffic.json) Traffic.update_list
    (fun _ => true) Fixture.watching =
    Some (Some (ErrUnknownValueType "number[]"), []).
Proof.
  destruct (notification_with_bad_value_refused (H := Traffic.json)
              Fixture.watching Traffic.update_list (fun _ => true)
              Traffic.list_value) as [_ Hlist].
  - vm_compute. reflexivity.
  - destruct Hlist as [Hrun _]; [left; reflexivity|exact Hrun].
Defined.

(** ** GetNodes *)

(** X16.  [GetNodes] publishes exactly one message, with an empty payload,
    on the get-nodes topic.  If the transport refuses it the call returns
    the transport's error, and with a nil context it returns nil, both
    without waiting.  Otherwise the call waits, and when a bootstrap
    response is handled while it waits, the call returns what the handler
    returned: nil, or the handler's error. *)
Theorem GetNodes_returns_the_verdict `{EncodingJSON}
    (sys : System) (t : nat) (o : select_case) :
  threads sys !! t = None ->
  let s := state sys in
  let s1 := set_published
              (published s ++ [(TopicGetNodesReq, EmptyString)]) s in
  (forall e ctx_is_nil, p s TopicGetNodesReq EmptyString = Some e ->
     exec [call_GetNodes t ctx_is_nil; run t o] sys =
       Some ({| state := s1;
                threads :=
                  <[t := thread_GetNodes (GetNodes_return (Some e))]>
                    (threads sys) |}, [obs_none; obs_none])) /\
  (p s TopicGetNodesReq EmptyString = None ->
     exec [call_GetNodes t true; run t o] sys =
       Some ({| state := s1;
                threads :=
                  <[t := thread_GetNodes (GetNodes_return None)]>
                    (threads sys) |}, [obs_none; obs_none])) /\
  (forall payload s' err sent,
     p s TopicGetNodesReq EmptyString = None ->
     handleGetNodesResp payload true s1 = Some (s', (err, sent)) ->
     exec [call_GetNodes t false; run t o;
           recv_GetNodesResp payload (Some t)] sys =
       Some ({| state := s';
                threads :=
                  <[t := thread_GetNodes (GetNodes_return err)]>
                    (threads sys) |},
             [obs_none; obs_none; obs_handler err])).
Proof.
  intros Ht s s1. split; [|split].
  - intros e ctx_is_nil Hp. simpl. rewrite Ht. simpl.
    rewrite lookup_insert_eq. simpl. unfold Publish. fold s. rewrite Hp.
    rewrite insert_insert_eq. reflexivity.
  - intros Hp. simpl. rewrite Ht. simpl.
    rewrite lookup_insert_eq. simpl. unfold Publish. fold s. rewrite Hp.
    rewrite insert_insert_eq. reflexivity.
  - intros payload s' err sent Hp Hrun. simpl. rewrite Ht. simpl.
    rewrite lookup_insert_eq. simpl. unfold Publish. fold s. rewrite Hp.
    simpl. rewrite lookup_insert_eq. fold s1.
    assert (Hsent : sent = Some err).
    { unfold handleGetNodesResp in Hrun.
      destruct (handleGetNodesResp_func payload s1) as [[s2 e2]|];
        [|discriminate]. now injection Hrun as _ <- <-. }
    rewrite Hrun, Hsent. simpl. rewrite !insert_insert_eq. reflexivity.
Qed.

Lemma GetNodes_returns_the_verdict_witness :
  match exec (H := Fixture.json)
          [call_GetNodes 1 false; run 1 case_recv;
           recv_GetNodesResp Fixture.boot_twins (Some 1%nat)]
          (Fixture.start Fixture.kitchen) with
  | Some (sys', os) =>
      threads sys' !! 1%nat =
        Some (thread_GetNodes
                (GetNodes_return (Some (ErrDuplicateNodeName "hall")))) /\
      published (state sys') = [(TopicGetNodesReq, EmptyString)]
  | None => False
  end.
Proof.
  destruct (GetNodes_returns_the_verdict (H := Fixture.json)
              (Fixture.start Fixture.kitchen) 1%nat case_recv)
    as (_ & _ & Hverdict); [reflexivity|].
  rewrite (Hverdict Fixture.boot_twins
             (Fixture.after
                [call_GetNodes 1 false; run 1 case_recv;
                 recv_GetNodesResp Fixture.boot_twins None]
                Fixture.kitchen)
             (Some (ErrDuplicateNodeName "hall"))
             (Some (Some (ErrDuplicateNodeName "hall"))));
    [|reflexivity|vm_compute; reflexivity].
  split; vm_compute; reflexivity.
Defined.

(** ** The pending-write table along a run *)

Section Channels.
Context `{EncodingJSON}.

Lemma install_setAttr (n : api.Node) (s : State) :
  setAttr (install n s) = setAttr s.
Proof.
  unfold install. destruct (negb (Name n =? EmptyString)); reflexivity.
Qed.

Lemma range_setAttr (result : list api.Node) :
  forall s s' err,
    handleGetNodesResp_range result s = (s', err) ->
    setAttr s' = setAttr s.
Proof.
  induction result as [|n rest IH]; intros s s' err Hr.
  - now injection Hr as <- _.
  - rewrite range_cons in Hr. destruct (Failed n); [eauto|].
    destruct (nodesByName s !! Name n); [now injection Hr as <- _|].
    rewrite (IH _ _ _ Hr). apply install_setAttr.
Qed.

Lemma channels_distinct_frame (s s' : State) :
  setAttr s' = setAttr s -> (next s <= next s')%positive ->
  channels_distinct s -> channels_distinct s'.
Proof.
  intros Hs Hn [Halloc Hinj]. split.
  - intros k w Hk. rewrite Hs in Hk. pose proof (Halloc k w Hk). lia.
  - intros k k' w. rewrite Hs. apply Hinj.
Qed.

Lemma SetAttr_step_channels (o : select_case) (pc pc' : SetAttr_pc)
    (s s' : State) :
  SetAttr_step o pc s = Some (s', pc') ->
  channels_distinct s -> channels_distinct s'.
Proof.
  intros Hstep Hd. destruct pc; simpl in Hstep.
  - repeat case_match; simplify_eq; try exact Hd.
    all: first
      [ apply (channels_distinct_frame s);
        [reflexivity|simpl; lia|exact Hd]
      | destruct Hd as [Halloc Hinj]; split; simpl;
        [ intros k w; rewrite lookup_insert; case_decide;
          [ intros [= <-]; lia
          | intros Hk; pose proof (Halloc k w Hk); lia ]
        | intros k k' w; rewrite !lookup_insert;
          repeat case_decide; try congruence;
          [ intros [= <-] Hk; pose proof (Halloc _ _ Hk); lia
          | intros Hk [= <-]; pose proof (Halloc _ _ Hk); lia
          | apply Hinj ] ] ].
  - unfold Publish in Hstep. repeat case_match; simplify_eq;
      (apply (channels_distinct_frame s); [reflexivity|simpl; lia|exact Hd]).
  - repeat case_match; simplify_eq; exact Hd.
  - repeat case_match; simplify_eq.
    destruct Hd as [Halloc Hinj]. split; simpl.
    + intros k w Hk. apply lookup_delete_Some in Hk as [_ Hk]. eauto.
    + intros k k' w Hk Hk'. apply lookup_delete_Some in Hk as [_ Hk].
      apply lookup_delete_Some in Hk' as [_ Hk']. eauto.
  - discriminate.
Qed.

Lemma step_channels (e : event) (sys sys' : System) (o : observation) :
  step e sys = Some (sys', o) ->
  channels_distinct (state sys) -> channels_distinct (state sys').
Proof.
  intros Hstep Hd. destruct e; simpl in Hstep.
  - repeat case_match; simplify_eq. exact Hd.
  - repeat case_match; simplify_eq. exact Hd.
  - repeat case_match; simplify_eq; simpl.
    + eapply SetAttr_step_channels; eassumption.
    + match goal with
      | Hs : GetNodes_step _ _ _ = _ |- _ =>
          destruct pc; simpl in Hs; unfold Publish in Hs;
          repeat case_match; simplify_eq; try exact Hd;
          (apply (channels_distinct_frame (state sys));
           [reflexivity|simpl; lia|exact Hd])
      end.
  - repeat case_match; simplify_eq. simpl.
    match goal with
    | Hs : WatchValue _ _ _ _ = _ |- _ =>
        destruct (WatchValue_referenced _ _ _ _ _ _ Hs) as [Hnext _];
        apply (channels_distinct_frame (state sys)); [|exact Hnext|exact Hd];
        unfold WatchValue in Hs; repeat case_match; simplify_eq;
        reflexivity
    end.
  - repeat case_match; simplify_eq. simpl.
    match goal with
    | Hs : cancel _ _ = _ |- _ =>
        unfold cancel in Hs; case_match; simplify_eq
    end.
    apply (channels_distinct_frame (state sys));
      [reflexivity|simpl; lia|exact Hd].
  - repeat case_match; simplify_eq; simpl.
    all: match goal with
      | Hs : handleGetNodesResp _ _ _ = _ |- _ =>
          destruct (handleGetNodesResp_frame _ _ _ _ _ Hs) as (_ & Hnext & _);
          apply (channels_distinct_frame (state sys));
            [|exact Hnext|exact Hd];
          unfold handleGetNodesResp, handleGetNodesResp_func in Hs;
          repeat case_match; simplify_eq; try reflexivity;
          match goal with
          | Hr : handleGetNodesResp_range _ _ = _ |- _ =>
              exact (range_setAttr _ _ _ _ Hr)
          end
      end.
  - repeat case_match; simplify_eq. simpl.
    match goal with
    | Hs : handleWriteValueResp _ _ = _ |- _ =>
        destruct (handleWriteValueResp_frame _ _ _ _ Hs)
          as (_ & _ & _ & _ & Hnext);
        apply (channels_distinct_frame (state sys));
          [|exact Hnext|exact Hd];
        unfold handleWriteValueResp, send_wait in Hs;
        repeat case_match; simplify_eq; reflexivity
    end.
  - repeat case_match; simplify_eq. exact Hd.
Qed.

Lemma exec_channels (tr : list event) :
  forall sys sys' os,
    exec tr sys = Some (sys', os) ->
    channels_distinct (state sys) -> channels_distinct (state sys').
Proof.
  induction tr as [|e tr IH]; intros sys sys' os Hexec Hd.
  - now injection Hexec as <- _.
  - simpl in Hexec. destruct (step e sys) as [[sys1 o]|] eqn:Hstep;
      [|discriminate].
    destruct (exec tr sys1) as [[sys2 os']|] eqn:Hrest; [|discriminate].
    injection Hexec as <- _.
    exact (IH _ _ _ Hrest (step_channels _ _ _ _ Hstep Hd)).
Qed.

End Channels.

(** X17.  Acknowledgements do not cross keys.  In every state that a run
    of the broker reaches from its creation, the channels of the
    pending-write table are pairwise distinct, so that an acknowledgement
    for one identifier leaves alone the channel of a call registered under
    any other identifier: that call is neither completed nor disturbed by
    it. *)
Theorem acks_do_not_cross_keys `{EncodingJSON}
    (publisher : Publisher) (tr : list event) (sys : System)
    (os : list observation) :
  exec tr {| state := NewBroker publisher; threads := ∅ |} = Some (sys, os)
  ->
  (forall k k' w,
     setAttr (state sys) !! k = Some w ->
     setAttr (state sys) !! k' = Some w -> k = k') /\
  (forall payload resp k w s' err,
     WriteValueResp_UnmarshalJSON payload zero_WriteValueResp
       = (None, resp) ->
     setAttr (state sys) !! k = Some w ->
     wv_ValueID resp <> k ->
     handleWriteValueResp payload (state sys) = Some (s', err) ->
     waitBuf s' w = waitBuf (state sys) w /\
     setAttr s' = setAttr (state sys)).
Proof.
  intros Hexec.
  assert (Hd : channels_distinct (state sys)).
  { apply (exec_channels _ _ _ _ Hexec). split; simpl.
    - intros k w Hk. rewrite lookup_empty in Hk. discriminate.
    - intros k k' w Hk. rewrite lookup_empty in Hk. discriminate. }
  destruct Hd as [_ Hinj]. split; [exact Hinj|].
  intros payload resp k w s' err Hdec Hk Hne Hrun.
  unfold handleWriteValueResp in Hrun. rewrite Hdec in Hrun.
  destruct (mu (state sys)); [discriminate|].
  destruct (setAttr (state sys) !! wv_ValueID resp) as [w'|] eqn:Hw';
    [|injection Hrun as <- _; split; reflexivity].
  assert (Hww : w' <> w).
  { intros ->. apply Hne. exact (Hinj _ _ _ Hw' Hk). }
  unfold send_wait in Hrun.
  destruct (waitBuf (state sys) w');
    [|destruct (negb (wv_Success resp)); discriminate].
  destruct (negb (wv_Success resp)); injection Hrun as <- _;
    (split; [|reflexivity]); unfold waitBuf; simpl;
    rewrite lookup_insert_ne by exact Hww; reflexivity.
Qed.

Lemma acks_do_not_cross_keys_witness :
  match exec (H := Traffic.json) Traffic.two_writes
          {| state := NewBroker Fixture.transport; threads := ∅ |} with
  | Some (sys, _) =>
      setAttr (state sys) !! Fixture.vid_kitchen = Some 3%positive /\
      setAttr (state sys) !! Traffic.vid_den = Some 4%positive /\
      exists s',
        handleWriteValueResp (H := Traffic.json) Traffic.ack_den
          (state sys) = Some (s', None) /\
        waitBuf s' 4%positive = [None] /\
        waitBuf s' 3%positive = waitBuf (state sys) 3%positive
  | None => False
  end.
Proof.
  destruct (exec (H := Traffic.json) Traffic.two_writes
              {| state := NewBroker Fixture.transport; threads := ∅ |})
    as [[sys os]|] eqn:Hexec; [|vm_compute in Hexec; discriminate].
  destruct (acks_do_not_cross_keys (H := Traffic.json) _ _ _ _ Hexec)
    as [_ Hkeep].
  vm_compute in Hexec. injection Hexec as <- _.
  split; [vm_compute; reflexivity|]. split; [vm_compute; reflexivity|].
  eexists. split; [vm_compute; reflexivity|].
  split; [vm_compute; reflexivity|].
  refine (proj1 (Hkeep Traffic.ack_den
                   {| wv_Success := true;
                      wv_Message := "Success zwave api call";
                      wv_ValueID := Traffic.vid_den; wv_Value := "5" |}
                   Fixture.vid_kitchen 3%positive _ None _ _ _ _)).
  - vm_compute. reflexivity.
  - vm_compute. reflexivity.
  - discriminate.
  - vm_compute. reflexivity.
Defined.

(** ** StringInt *)

Lemma Itoa_nonempty (i : Z) : Itoa i <> EmptyString.
Proof.
  unfold Itoa. destruct (Z.to_int i) as [d|d]; simpl; [|discriminate].
  destruct d; simpl; discriminate.
Qed.

(** X18.  The string form of a [StringInt] is never empty: it is the
    string when there is one and the decimal form of the integer
    otherwise.  The keys of [valuesByProperty] are such string forms, so
    that no value is ever found under the empty property name: [SetAttr]
    and [WatchValue] with an empty property name fail with NotFound on
    every device that the bootstrap installs. *)
Theorem StringInt_String_nonempty (s : StringInt) :
  StringInt_String s <> EmptyString /\
  (StringInt_s s <> EmptyString -> StringInt_String s = StringInt_s s) /\
  (StringInt_s s = EmptyString ->
     StringInt_String s = Itoa (StringInt_i s)) /\
  (forall n vw, valuesByProperty (newNode n vw) !! EmptyString = None).
Proof.
  assert (Hne : forall x, StringInt_String x <> EmptyString).
  { intros x. unfold StringInt_String.
    destruct (StringInt_s x =? EmptyString) eqn:He; simpl.
    - apply Itoa_nonempty.
    - now apply String.eqb_neq. }
  split; [apply Hne|]. split; [|split].
  - intros Hs. unfold StringInt_String. apply String.eqb_neq in Hs.
    now rewrite Hs.
  - intros Hs. unfold StringInt_String. now rewrite Hs.
  - intros n vw. unfold newNode. simpl.
    rewrite (fold_insert_last (fun v => StringInt_String (Property v))).
    rewrite lookup_empty.
    destruct (Values_last _ (Values n) EmptyString) as [v|] eqn:Hl;
      [|reflexivity].
    destruct (Values_last_key _ _ _ _ Hl) as [Hk _].
    destruct (Hne _ Hk).
Qed.

(** X19.  Decoding a [property] field and reading it back.  A text that
    starts with a double quote is decoded into the string and leaves the
    integer alone; any other text is decoded into the integer and leaves
    the string alone; an empty text changes nothing.  Read back, a
    non-empty string decoded is returned as it is, and a number decoded
    into a [StringInt] without a string is returned in decimal.  Two edge
    cases follow from the code: an empty JSON string reads back as the
    decimal form of the integer, and a number decoded into a [StringInt]
    that already has a string is hidden by that string. *)
Theorem StringInt_decode_then_String `{EncodingJSON}
    (c : Ascii.ascii) (b : string) (s : StringInt) :
  StringInt_UnmarshalJSON EmptyString s = (None, s) /\
  (c = Ascii.ascii_of_nat 34 ->
   forall err s',
     Unmarshal_string (String c b) (StringInt_s s) = (err, s') ->
     StringInt_UnmarshalJSON (String c b) s =
       (err, {| StringInt_s := s'; StringInt_i := StringInt_i s |}) /\
     StringInt_String (snd (StringInt_UnmarshalJSON (String c b) s)) =
       if s' =? EmptyString then Itoa (StringInt_i s) else s') /\
  (c <> Ascii.ascii_of_nat 34 ->
   forall err i',
     Unmarshal_int (String c b) (StringInt_i s) = (err, i') ->
     StringInt_UnmarshalJSON (String c b) s =
       (err, {| StringInt_s := StringInt_s s; StringInt_i := i' |}) /\
     StringInt_String (snd (StringInt_UnmarshalJSON (String c b) s)) =
       if StringInt_s s =? EmptyString then Itoa i' else StringInt_s s).
Proof.
  split; [reflexivity|]. split.
  - intros -> err s' Hu. unfold StringInt_UnmarshalJSON.
    rewrite Ascii.eqb_refl, Hu. split; [reflexivity|].
    unfold StringInt_String. simpl. now destruct (s' =? EmptyString).
  - intros Hc err i' Hu. unfold StringInt_UnmarshalJSON.
    apply Ascii.eqb_neq in Hc. rewrite Hc, Hu. split; [reflexivity|].
    unfold StringInt_String. simpl.
    now destruct (StringInt_s s =? EmptyString).
Qed.

Lemma StringInt_decode_then_String_witness :
  StringInt_String
    (snd (StringInt_UnmarshalJSON (H := Fixture.json) "50"
            zero_StringInt)) = "50" /\
  StringInt_String
    (snd (StringInt_UnmarshalJSON (H := Fixture.json) (Fixture.dq "'on'")
            zero_StringInt)) = "on".
Proof.
  split.
  - destruct (StringInt_decode_then_String (H := Fixture.json)
                (Ascii.ascii_of_nat 53) "0" zero_StringInt)
      as (_ & _ & Hint).
    destruct (Hint ltac:(discriminate) None 50 eq_refl) as [_ Hs].
    exact Hs.
  - destruct (StringInt_decode_then_String (H := Fixture.json)
                (Ascii.ascii_of_nat 34) (Fixture.dq "on'") zero_StringInt)
      as (_ & Hstr & _).
    destruct (Hstr eq_refl None "on" eq_refl) as [_ Hs].
    exact Hs.
Defined.
